(** * Smart research summarizer: document grounding and prompt orchestration

    A shallow embedding of [backend/app.py].  Python [str] values are
    [string]s whose characters are the code points below 256; the [dict]
    [document_content] is a [gmap string string]; the remote generation
    service and the uploaded bytes are the environment of the handlers. *)

From Stdlib Require Import Ascii NArith.
From stdpp Require Import base option list strings pretty gmap fin_maps.

(** ** Python string primitives *)

Module Py.

Definition LF : ascii := "010"%char.
Definition CR : ascii := "013"%char.

(** The one-character string written ["\n"] in the source. *)
Definition nl : string := String LF "".

(** Truth value of a [str]: every string but the empty one. *)
Definition truthy (s : string) : bool :=
  match s with
  | "" => false
  | String _ _ => true
  end.

(** Truth value of a value that is either [None] or a [str]. *)
Definition truthy_opt (o : option string) : bool :=
  match o with
  | Some s => truthy s
  | None => false
  end.

(** [str.isspace] on one character (code points below 256). *)
Definition isspace (c : ascii) : bool :=
  let n := N_of_ascii c in
  ((9 <=? n) && (n <=? 13) || (28 <=? n) && (n <=? 31)
   || (n =? 32) || (n =? 133) || (n =? 160))%N.

Fixpoint lstrip (s : string) : string :=
  match s with
  | "" => ""
  | String c s' => if isspace c then lstrip s' else s
  end.

Definition rstrip (s : string) : string :=
  String.rev (lstrip (String.rev s)).

(** [s.strip()] *)
Definition strip (s : string) : string := rstrip (lstrip s).

(** [s.split(sep)] for a one-character separator: never an empty list. *)
Fixpoint split (sep : ascii) (s : string) : list string :=
  match s with
  | "" => [""]
  | String c s' =>
      if Ascii.eqb c sep then "" :: split sep s'
      else match split sep s' with
           | [] => [String c ""]
           | h :: t => String c h :: t
           end
  end.

(** [c.lower()] on one character (code points below 256). *)
Definition lower_char (c : ascii) : ascii :=
  let n := N_of_ascii c in
  if ((65 <=? n) && (n <=? 90)
      || (192 <=? n) && (n <=? 222) && negb (n =? 215))%N
  then ascii_of_N (n + 32) else c.

Fixpoint lower (s : string) : string :=
  match s with
  | "" => ""
  | String c s' => String (lower_char c) (lower s')
  end.

(** [s.endswith(suffix)]: some tail of [s] is [suffix]. *)
Fixpoint endswith (s suffix : string) : bool :=
  String.eqb s suffix
  || match s with
     | "" => false
     | String _ s' => endswith s' suffix
     end.

(** [c in s] for a character [c]. *)
Fixpoint contains (c : ascii) (s : string) : bool :=
  match s with
  | "" => false
  | String d s' => Ascii.eqb d c || contains c s'
  end.

(** [s.rsplit(sep, 1)[1]] when [sep] occurs in [s]: what follows the
    last occurrence of [sep]. *)
Definition after_last (sep : ascii) (s : string) : string :=
  List.last (split sep s) "".

(** [str(n)] for a non-negative integer. *)
Definition str (n : nat) : string := pretty n.

(** [enumerate(l)] from a given start. *)
Fixpoint enumerate_from {A} (start : nat) (l : list A) : list (nat * A) :=
  match l with
  | [] => []
  | x :: l' => (start, x) :: enumerate_from (S start) l'
  end.

Definition enumerate {A} (l : list A) : list (nat * A) := enumerate_from 0 l.

(** Text-mode reading with universal newlines: ["\r\n"] and ["\r"] are
    read as ["\n"]. *)
Fixpoint translate_newlines (s : string) : string :=
  match s with
  | "" => ""
  | String c s' =>
      if Ascii.eqb c CR then
        match s' with
        | String d s'' =>
            if Ascii.eqb d LF then String LF (translate_newlines s'')
            else String LF (translate_newlines s')
        | "" => nl
        end
      else String c (translate_newlines s')
  end.

(** Lines of a text, each with its terminating ["\n"] when it has one. *)
Fixpoint keepends (s : string) : list string :=
  match s with
  | "" => []
  | String c s' =>
      if Ascii.eqb c LF then nl :: keepends s'
      else match keepends s' with
           | [] => [String c ""]
           | h :: t => String c h :: t
           end
  end.

(** [file.readlines()] on a file opened in text mode. *)
Definition readlines (content : string) : list string :=
  keepends (translate_newlines content).

End Py.

Import Py.

(** ** Line-addressable text extraction *)

(** What [page.extract_text()] does on one page: it returns text, returns
    [None], or raises. *)
Inductive page_result :=
| PageText (t : string)
| PageNoText
| PageError.

(** An uploaded file.  [saved] tells whether [file.save(filepath)]
    returns: it raises when the destination under the upload folder cannot
    be opened for writing.  The saved bytes are read by [PdfReader] or as
    UTF-8 text, depending on the extension of [filename]:
    [as_pdf] is the sequence of pages of the reader ([None] when opening or
    parsing raises), [as_txt] the decoded content ([None] when opening or
    decoding raises). *)
Record upload_file := {
  filename : string;
  saved : bool;
  as_pdf : option (list page_result);
  as_txt : option string;
}.

(** One iteration of the inner loop of [extract_text_from_pdf]:
    what is appended to [text] for line [i] of page [page_num]. *)
Definition pdf_line (page_num i : nat) (line : string) : string :=
  if truthy (strip line)
  then "[Page " +:+ str (page_num + 1) +:+ ", Line " +:+ str (i + 1) +:+ "] "
       +:+ line +:+ nl
  else nl.

(** The inner loop [for i, line in enumerate(lines)]. *)
Definition pdf_lines_loop (page_num : nat) (lines : list (nat * string))
    (text : string) : string :=
  fold_left (fun text il => text +:+ pdf_line page_num il.1 il.2) lines text.

(** [page.extract_text() or ""]; [None] when the call raises. *)
Definition page_text_or_empty (p : page_result) : option string :=
  match p with
  | PageText t => Some (if truthy t then t else "")
  | PageNoText => Some ""
  | PageError => None
  end.

(** The outer loop [for page_num, page in enumerate(reader.pages)];
    [None] when an exception leaves the loop. *)
Fixpoint pdf_pages_loop (pages : list (nat * page_result)) (text : string)
    : option string :=
  match pages with
  | [] => Some text
  | (page_num, page) :: rest =>
      match page_text_or_empty page with
      | None => None
      | Some page_text =>
          let lines := split LF page_text in
          pdf_pages_loop rest (pdf_lines_loop page_num (enumerate lines) text)
      end
  end.

Definition extract_text_from_pdf (pdf : option (list page_result))
    : option string :=
  match pdf with
  | None => None
  | Some pages => pdf_pages_loop (enumerate pages) ""
  end.

(** One iteration of the loop of [extract_text_from_txt]. *)
Definition txt_line (i : nat) (line : string) : string :=
  if truthy (strip line)
  then "[Line " +:+ str (i + 1) +:+ "] " +:+ line
  else nl.

Definition txt_lines_loop (lines : list (nat * string)) (text : string)
    : string :=
  fold_left (fun text il => text +:+ txt_line il.1 il.2) lines text.

Definition extract_text_from_txt (txt : option string) : option string :=
  match txt with
  | None => None
  | Some content =>
      let lines := readlines content in
      Some (txt_lines_loop (enumerate lines) "")
  end.

(** ** JSON decoding ([json.loads])

    Decoded strings are sequences of code points, since a [\uXXXX] escape
    reaches beyond the characters of the text.  A number without fraction
    and exponent is an integer, any other keeps its lexeme.  Besides
    [JSONDecodeError] the decoder raises [ValueError] on an integer of more
    digits than the interpreter converts, and [RecursionError] when arrays
    and objects are nested deeper than the interpreter allows. *)

Module Json.

#[warning="-register-all"] Inductive value :=
| Null
| Bool (b : bool)
| Int (z : Z)
| Float (lexeme : string)
| NaN
| Infinity
| NegInfinity
| Str (s : list N)
| Array (items : list value)
| Object (members : list (list N * value)).

Definition quote : ascii := "034"%char.
Definition backslash : ascii := "092"%char.

(** The exceptions of the decoder. *)
Inductive exn :=
| JSONDecodeError
| ValueError
| RecursionError.

(** What a scanner gives: a result and the rest of the text, or the
    exception it raises. *)
Inductive scanned (A : Type) :=
| Scanned (a : A) (rest : string)
| Raised (e : exn).

Global Arguments Scanned {A} a rest.
Global Arguments Raised {A} e.

Definition scan_bind {A B} (m : scanned A) (k : A → string → scanned B)
    : scanned B :=
  match m with
  | Scanned a rest => k a rest
  | Raised e => Raised e
  end.

(** A scanner that fails only with [JSONDecodeError]. *)
Definition or_decode_error {A} (o : option (A * string)) : scanned A :=
  match o with
  | Some (a, rest) => Scanned a rest
  | None => Raised JSONDecodeError
  end.

(** What [json.loads] gives: a value, or the exception it raises. *)
Inductive decoded :=
| Decoded (v : value)
| Raises (e : exn).

(** The most digits [int] converts ([sys.get_int_max_str_digits()]). *)
Definition max_str_digits : nat := 4300.


Definition is_ws (c : ascii) : bool :=
  Ascii.eqb c " " || Ascii.eqb c "009" || Ascii.eqb c LF || Ascii.eqb c CR.

Fixpoint skip_ws (s : string) : string :=
  match s with
  | "" => ""
  | String c s' => if is_ws c then skip_ws s' else s
  end.

Definition is_digit (c : ascii) : bool :=
  let n := N_of_ascii c in ((48 <=? n) && (n <=? 57))%N.

Fixpoint span_digits (s : string) : string * string :=
  match s with
  | "" => ("", "")
  | String c s' =>
      if is_digit c
      then let '(ds, r) := span_digits s' in (String c ds, r)
      else ("", s)
  end.

Fixpoint digits_value (acc : Z) (ds : string) : Z :=
  match ds with
  | "" => acc
  | String c ds' => digits_value (10 * acc + Z.of_N (N_of_ascii c - 48)) ds'
  end.

Definition hex_val (c : ascii) : option N :=
  let n := N_of_ascii c in
  if ((48 <=? n) && (n <=? 57))%N then Some (n - 48)%N
  else if ((65 <=? n) && (n <=? 70))%N then Some (n - 55)%N
  else if ((97 <=? n) && (n <=? 102))%N then Some (n - 87)%N
  else None.

Definition hex4 (a b c d : ascii) : option N :=
  x ← hex_val a; y ← hex_val b; z ← hex_val c; w ← hex_val d;
  Some (((x * 16 + y) * 16 + z) * 16 + w)%N.

Definition is_high_surrogate (u : N) : bool := ((55296 <=? u) && (u <=? 56319))%N.
Definition is_low_surrogate (u : N) : bool := ((56320 <=? u) && (u <=? 57343))%N.
Definition join_surrogates (u u2 : N) : N :=
  (65536 + ((u - 55296) * 1024 + (u2 - 56320)))%N.

(** The character a one-letter escape stands for. *)
Definition escape (e : ascii) : option N :=
  if Ascii.eqb e quote then Some 34%N
  else if Ascii.eqb e backslash then Some 92%N
  else if Ascii.eqb e "/" then Some 47%N
  else if Ascii.eqb e "b" then Some 8%N
  else if Ascii.eqb e "f" then Some 12%N
  else if Ascii.eqb e "n" then Some 10%N
  else if Ascii.eqb e "r" then Some 13%N
  else if Ascii.eqb e "t" then Some 9%N
  else None.

Definition push (u : N) (r : option (list N * string))
    : option (list N * string) :=
  '(cs, rest) ← r; Some (u :: cs, rest).

(** The body of a string, from after its opening quote; with the rest of
    the text after its closing quote. *)
Fixpoint scan_string (s : string) : option (list N * string) :=
  match s with
  | "" => None
  | String c s1 =>
      if Ascii.eqb c quote then Some ([], s1)
      else if Ascii.eqb c backslash then
        match s1 with
        | "" => None
        | String e s2 =>
            if Ascii.eqb e "u" then
              match s2 with
              | String h1 (String h2 (String h3 (String h4 s3))) =>
                  match hex4 h1 h2 h3 h4 with
                  | None => None
                  | Some u =>
                      if is_high_surrogate u then
                        match s3 with
                        | String b (String e2 (String k1 (String k2
                            (String k3 (String k4 s4))))) =>
                            if Ascii.eqb b backslash && Ascii.eqb e2 "u" then
                              match hex4 k1 k2 k3 k4 with
                              | None => None
                              | Some u2 =>
                                  if is_low_surrogate u2
                                  then push (join_surrogates u u2) (scan_string s4)
                                  else push u (scan_string s3)
                              end
                            else push u (scan_string s3)
                        | _ => push u (scan_string s3)
                        end
                      else push u (scan_string s3)
                  end
              | _ => None
              end
            else
              match escape e with
              | None => None
              | Some ch => push ch (scan_string s2)
              end
        end
      else if (N_of_ascii c <? 32)%N then None
      else push (N_of_ascii c) (scan_string s1)
  end.

(** A number: an optional minus sign, an integer part without leading
    zero, then an optional fraction and an optional exponent, each of
    which is read only when it has a digit.  The lexeme of an integer goes
    to [int], which raises [ValueError] on more than [max_str_digits]
    digits; any other lexeme goes to [float]. *)
Definition scan_number (s : string) : scanned value :=
  let '(neg, s1) :=
    match s with
    | String c r => if Ascii.eqb c "-" then (true, r) else (false, s)
    | "" => (false, s)
    end in
  match s1 with
  | "" => Raised JSONDecodeError
  | String c r =>
      if is_digit c then
        let '(ip, s2) :=
          if Ascii.eqb c "0" then ("0", r)
          else let '(ds, r') := span_digits r in (String c ds, r') in
        let '(fp, s3) :=
          match s2 with
          | String p (String d r') =>
              if Ascii.eqb p "." && is_digit d
              then let '(ds, r'') := span_digits (String d r') in
                   (String p ds, r'')
              else ("", s2)
          | _ => ("", s2)
          end in
        let '(ep, s4) :=
          match s3 with
          | String e r' =>
              if Ascii.eqb e "e" || Ascii.eqb e "E" then
                let '(sg, r'') :=
                  match r' with
                  | String g t =>
                      if Ascii.eqb g "+" || Ascii.eqb g "-"
                      then (String g "", t) else ("", r')
                  | "" => ("", r')
                  end in
                match span_digits r'' with
                | ("", _) => ("", s3)
                | (ds, t) => (String e sg +:+ ds, t)
                end
              else ("", s3)
          | "" => ("", s3)
          end in
        match fp, ep with
        | "", "" =>
            if Nat.ltb max_str_digits (String.length ip)
            then Raised ValueError
            else
              let z := digits_value 0 ip in
              Scanned (Int (if neg then - z else z)%Z) s4
        | _, _ =>
            Scanned (Float ((if neg then "-" else "") +:+ ip +:+ fp +:+ ep)) s4
        end
      else Raised JSONDecodeError
  end.

(** [s] without its prefix [p], when it starts with [p]. *)
Fixpoint strip_prefix (p s : string) : option string :=
  match p, s with
  | "", _ => Some s
  | String a p', String b s' =>
      if Ascii.eqb a b then strip_prefix p' s' else None
  | String _ _, "" => None
  end.

(** [d[k] = v] on a dictionary kept in insertion order. *)
Fixpoint dict_set {V} (k : list N) (v : V) (d : list (list N * V))
    : list (list N * V) :=
  match d with
  | [] => [(k, v)]
  | (k', v') :: d' =>
      if decide (k' = k) then (k', v) :: d' else (k', v') :: dict_set k v d'
  end.

Definition dict_of_pairs {V} (pairs : list (list N * V)) : list (list N * V) :=
  fold_left (fun d kv => dict_set kv.1 kv.2 d) pairs [].

(** A constant or a number at the start of [s]. *)
Definition scan_atom (s : string) : scanned value :=
  match strip_prefix "null" s with
  | Some r => Scanned Null r
  | None =>
  match strip_prefix "true" s with
  | Some r => Scanned (Bool true) r
  | None =>
  match strip_prefix "false" s with
  | Some r => Scanned (Bool false) r
  | None =>
  match strip_prefix "NaN" s with
  | Some r => Scanned NaN r
  | None =>
  match strip_prefix "Infinity" s with
  | Some r => Scanned Infinity r
  | None =>
  match strip_prefix "-Infinity" s with
  | Some r => Scanned NegInfinity r
  | None => scan_number s
  end end end end end end.

(** The scanner: a value at the start of [s], and what follows it.
    [scan_items] reads the items of an array from its first item on,
    [scan_members] the members of an object from its first key on.
    [depth] is the number of arrays and objects that may still be entered,
    one inside the other: entering one more raises [RecursionError].
    [fuel] bounds the steps of the scanner. *)
Fixpoint scan_once (fuel depth : nat) (s : string) : scanned value :=
  match fuel with
  | 0 => Raised JSONDecodeError
  | S fuel =>
      match s with
      | "" => Raised JSONDecodeError
      | String c s1 =>
          if Ascii.eqb c quote then
            scan_bind (or_decode_error (scan_string s1))
              (λ cs r, Scanned (Str cs) r)
          else if Ascii.eqb c "{" then
            match depth with
            | 0 => Raised RecursionError
            | S depth =>
                match skip_ws s1 with
                | String c2 r =>
                    if Ascii.eqb c2 "}" then Scanned (Object []) r
                    else scan_bind (scan_members fuel depth (String c2 r))
                           (λ ms r', Scanned (Object (dict_of_pairs ms)) r')
                | "" => Raised JSONDecodeError
                end
            end
          else if Ascii.eqb c "[" then
            match depth with
            | 0 => Raised RecursionError
            | S depth =>
                match skip_ws s1 with
                | String c2 r =>
                    if Ascii.eqb c2 "]" then Scanned (Array []) r
                    else scan_bind (scan_items fuel depth (String c2 r))
                           (λ vs r', Scanned (Array vs) r')
                | "" => Raised JSONDecodeError
                end
            end
          else
            scan_atom s
      end
  end
with scan_items (fuel depth : nat) (s : string) : scanned (list value) :=
  match fuel with
  | 0 => Raised JSONDecodeError
  | S fuel =>
      scan_bind (scan_once fuel depth s) (λ v r,
        match skip_ws r with
        | String c r1 =>
            if Ascii.eqb c "]" then Scanned [v] r1
            else if Ascii.eqb c "," then
              scan_bind (scan_items fuel depth (skip_ws r1))
                (λ vs r2, Scanned (v :: vs) r2)
            else Raised JSONDecodeError
        | "" => Raised JSONDecodeError
        end)
  end
with scan_members (fuel depth : nat) (s : string)
    : scanned (list (list N * value)) :=
  match fuel with
  | 0 => Raised JSONDecodeError
  | S fuel =>
      match s with
      | String q s1 =>
          if Ascii.eqb q quote then
            scan_bind (or_decode_error (scan_string s1)) (λ k r,
              match skip_ws r with
              | String c r1 =>
                  if Ascii.eqb c ":" then
                    scan_bind (scan_once fuel depth (skip_ws r1)) (λ v r2,
                      match skip_ws r2 with
                      | String e r3 =>
                          if Ascii.eqb e "}" then Scanned [(k, v)] r3
                          else if Ascii.eqb e "," then
                            scan_bind (scan_members fuel depth (skip_ws r3))
                              (λ ms r4, Scanned ((k, v) :: ms) r4)
                          else Raised JSONDecodeError
                      | "" => Raised JSONDecodeError
                      end)
                  else Raised JSONDecodeError
              | "" => Raised JSONDecodeError
              end)
          else Raised JSONDecodeError
      | "" => Raised JSONDecodeError
      end
  end.

(** [json.loads(s)] when the interpreter lets the decoder enter [depth]
    arrays and objects one inside the other. *)
Definition loads (depth : nat) (s : string) : decoded :=
  match scan_once (2 * String.length s + 2) depth (skip_ws s) with
  | Scanned v r =>
      match skip_ws r with
      | "" => Decoded v
      | String _ _ => Raises JSONDecodeError
      end
  | Raised e => Raises e
  end.

Global Arguments loads : simpl never.

End Json.


(** ** The process state and the remote generation service *)

(** The [generation_config] dictionary of a structured-output request. *)
Record response_schema := {
  schema_type : string;
  schema_items_type : string;
}.

Record generation_config := {
  response_mime_type : string;
  schema : response_schema;
}.

(** A candidate of a response, as the list of the texts of its content
    parts. *)
Record candidate := { parts : list string }.

(** What [model.generate_content] does: it raises, or returns a response
    with its candidates. *)
Inductive remote_result :=
| RemoteRaises
| RemoteResponse (candidates : list candidate).

(** The module-level dictionary [document_content], the requests sent to
    the remote service so far, most recent first, and the number of arrays
    and objects the recursion limit of the interpreter lets [json.loads]
    enter one inside the other. *)
Record world := {
  document_content : gmap string string;
  sent : list (string * option generation_config);
  recursion_limit : nat;
}.

(** The process at its start, in an interpreter that lets the decoder
    nest [limit] deep. *)
Definition start (limit : nat) : world :=
  {| document_content := ∅; sent := []; recursion_limit := limit |}.

(** The start of a process with room for 900 nested arrays and objects. *)
Definition initial_world : world := start 900.

(** Handlers are state transformers over [world]. *)
Definition M (A : Type) : Type := world → A * world.

Definition ret {A} (a : A) : M A := λ w, (a, w).

Definition bind {A B} (c : M A) (k : A → M B) : M B :=
  λ w, let '(a, w') := c w in k a w'.

Notation "x <~ c ;; k" := (bind c (λ x, k))
  (at level 100, c at next level, right associativity).

(** [document_content.get(name)] *)
Definition get_document (name : string) : M (option string) :=
  λ w, (document_content w !! name, w).

(** [document_content[name] = text] *)
Definition set_document (name text : string) : M unit :=
  λ w, (tt, {| document_content := <[name := text]> (document_content w);
               sent := sent w;
               recursion_limit := recursion_limit w |}).

(** The nesting the interpreter allows the decoder. *)
Definition get_recursion_limit : M nat :=
  λ w, (recursion_limit w, w).

(** ** Responses *)

(** The JSON bodies of the handlers, and the page the framework answers
    with when a handler raises. *)
Inductive body :=
| Error (error : string)
| Summary (message summary : string)
| Answer (answer : string)
| Questions (questions : Json.value)
| Feedback (feedback : gmap nat string)
| InternalServerError.

(** A body with its status code. *)
Definition response : Type := body * nat.

(** The answer of the framework to an exception that no handler catches. *)
Definition unhandled : response := (InternalServerError, 500).

(** The fields the handlers read in the JSON body of a request;
    [None] for a key that is absent. *)
Record json_body := {
  query : option string;
  documentName : option string;
  questions : option (list string);
  userAnswers : option (gmap string string);
}.

(** ** Helper functions *)

Definition ALLOWED_EXTENSIONS : gset string := {[ "pdf"; "txt" ]}.

Definition allowed_file (filename : string) : bool :=
  contains "." filename
  && bool_decide (lower (after_last "." filename) ∈ ALLOWED_EXTENSIONS).

(** [response.candidates[0].content.parts[0].text] when there is a
    candidate and it has a part. *)
Definition response_text (r : remote_result) : option string :=
  match r with
  | RemoteRaises => None
  | RemoteResponse candidates =>
      match candidates with
      | [] => None
      | c :: _ =>
          match parts c with
          | [] => None
          | text :: _ => Some text
          end
      end
  end.

(** The extraction step of [upload_document]: the extractor is chosen by
    the extension of the filename, and [extracted_text] stays [None]
    otherwise. *)
Definition extract_by_extension (file : upload_file) : option string :=
  if endswith (lower (filename file)) ".pdf"
  then extract_text_from_pdf (as_pdf file)
  else if endswith (lower (filename file)) ".txt"
  then extract_text_from_txt (as_txt file)
  else None.

Section Handlers.

(** The remote service: its result on a request, given how many requests
    it has had before. *)
Variable generate_content :
  nat → string → option generation_config → remote_result.

Definition get_gemini_response (prompt : string)
    (config : option generation_config) : M (option string) :=
  λ w, (response_text (generate_content (length (sent w)) prompt config),
        {| document_content := document_content w;
           sent := (prompt, config) :: sent w;
           recursion_limit := recursion_limit w |}).

(** ** API routes *)

Definition summary_prompt (extracted_text : string) : string :=
  "Summarize the following document in no more than 150 words. "
  +:+ "Focus on the main points. Document content: " +:+ extracted_text.

Definition extraction_failed : response :=
  (Error "Failed to extract text from document", 500).

(** [POST /upload]; [None] for a request without a [file] part.  A file
    object is true exactly when its filename is not empty.  No handler
    catches what [file.save] raises. *)
Definition upload_document (file : option upload_file) : M response :=
  match file with
  | None => ret (Error "No file part", 400)
  | Some file =>
      if negb (truthy (filename file)) then ret (Error "No selected file", 400)
      else if truthy (filename file) && allowed_file (filename file) then
        let filename := filename file in
        if negb (saved file) then ret unhandled
        else
        let extracted_text := extract_by_extension file in
        if negb (truthy_opt extracted_text) then ret extraction_failed
        else
          let extracted_text := default "" extracted_text in
          _ <~ set_document filename extracted_text ;;
          summary <~ get_gemini_response (summary_prompt extracted_text) None ;;
          match summary with
          | Some summary =>
              if truthy summary
              then ret (Summary "File uploaded and summarized successfully"
                          summary, 200)
              else ret (Error "Failed to generate summary", 500)
          | None => ret (Error "Failed to generate summary", 500)
          end
      else ret (Error "File type not allowed", 400)
  end.

Definition ask_prompt (query doc_text : string) : string :=
  "Based on the following document, answer the question: '" +:+ query
  +:+ "'. "
  +:+ "Provide justification using [Page X, Line Y] or [Line Y] markers."
  +:+ nl +:+ nl
  +:+ "Document content: " +:+ doc_text.

Definition not_found (error : string) : response := (Error error, 404).

(** [POST /ask] *)
Definition ask_question (data : json_body) : M response :=
  match query data, documentName data with
  | Some query, Some document_name =>
      if negb (truthy query) || negb (truthy document_name)
      then ret (Error "Missing query or document name", 400)
      else
        doc_text <~ get_document document_name ;;
        if negb (truthy_opt doc_text)
        then ret (not_found
               "Document content not found. Please upload the document again.")
        else
          let doc_text := default "" doc_text in
          answer <~ get_gemini_response (ask_prompt query doc_text) None ;;
          if truthy_opt answer
          then ret (Answer (default "" answer), 200)
          else ret (Error "Failed to get an answer from the assistant", 500)
  | _, _ => ret (Error "Missing query or document name", 400)
  end.

Definition challenge_prompt (doc_text : string) : string :=
  "Generate three distinct logic-based or comprehension-focused questions "
  +:+ "based on the following document. Provide them as a JSON array: "
  +:+ "[" +:+ String Json.quote "Q1" +:+ String Json.quote ", "
  +:+ String Json.quote "Q2" +:+ String Json.quote ", "
  +:+ String Json.quote "Q3" +:+ String Json.quote "]"
  +:+ nl +:+ nl +:+ "Document content: " +:+ doc_text.

Definition challenge_config : generation_config :=
  {| response_mime_type := "application/json";
     schema := {| schema_type := "ARRAY"; schema_items_type := "STRING" |} |}.

(** [POST /challenge]; only [JSONDecodeError] is caught. *)
Definition generate_challenge_questions (data : json_body) : M response :=
  match documentName data with
  | Some document_name =>
      if negb (truthy document_name)
      then ret (Error "Missing document name", 400)
      else
        doc_text <~ get_document document_name ;;
        if negb (truthy_opt doc_text)
        then ret (not_found "Document content not found.")
        else
          let doc_text := default "" doc_text in
          questions_json_str <~
            get_gemini_response (challenge_prompt doc_text)
              (Some challenge_config) ;;
          if truthy_opt questions_json_str then
            depth <~ get_recursion_limit ;;
            match Json.loads depth (default "" questions_json_str) with
            | Json.Decoded questions => ret (Questions questions, 200)
            | Json.Raises Json.JSONDecodeError =>
                ret (Error "Invalid JSON from assistant", 500)
            | Json.Raises _ => ret unhandled
            end
          else ret (Error "Failed to generate challenge questions", 500)
  | None => ret (Error "Missing document name", 400)
  end.

Definition evaluate_prompt (user_answer question doc_text : string) : string :=
  "Based on the document, evaluate if this answer: '" +:+ user_answer +:+ "' "
  +:+ "is correct for the question: '" +:+ question +:+ "'. Give a verdict "
  +:+ "(Correct/Partially Correct/Incorrect) and justify using [Page X, Line Y] or [Line Y] markers."
  +:+ nl +:+ nl
  +:+ "Document content: " +:+ doc_text.

(** [evaluation or "Evaluation not available."] *)
Definition evaluation_or_default (evaluation : option string) : string :=
  if truthy_opt evaluation then default "" evaluation
  else "Evaluation not available.".

(** The loop [for index, question in enumerate(questions)]. *)
Fixpoint evaluate_loop (doc_text : string) (user_answers : gmap string string)
    (items : list (nat * string)) (feedback : gmap nat string)
    : M (gmap nat string) :=
  match items with
  | [] => ret feedback
  | (index, question) :: rest =>
      let user_answer := default "" (user_answers !! str index) in
      let prompt := evaluate_prompt user_answer question doc_text in
      evaluation <~ get_gemini_response prompt None ;;
      evaluate_loop doc_text user_answers rest
        (<[index := evaluation_or_default evaluation]> feedback)
  end.

(** Truth value of a list, and of a dictionary. *)
Definition truthy_list {A} (l : list A) : bool :=
  match l with [] => false | _ :: _ => true end.

Definition truthy_dict (d : gmap string string) : bool :=
  negb (bool_decide (d = ∅)).

(** [POST /evaluate_challenge] *)
Definition evaluate_challenge_answers (data : json_body) : M response :=
  match documentName data, questions data, userAnswers data with
  | Some document_name, Some questions, Some user_answers =>
      if negb (truthy document_name) || negb (truthy_list questions)
         || negb (truthy_dict user_answers)
      then ret (Error "Missing data", 400)
      else
        doc_text <~ get_document document_name ;;
        if negb (truthy_opt doc_text)
        then ret (not_found "Document content not found.")
        else
          let doc_text := default "" doc_text in
          feedback <~
            evaluate_loop doc_text user_answers (enumerate questions) ∅ ;;
          ret (Feedback feedback, 200)
  | _, _, _ => ret (Error "Missing data", 400)
  end.

(** ** The server: requests handled one after the other *)

Inductive request :=
| Upload (file : option upload_file)
| Ask (data : json_body)
| Challenge (data : json_body)
| EvaluateChallenge (data : json_body).

Definition handle (r : request) : M response :=
  match r with
  | Upload file => upload_document file
  | Ask data => ask_question data
  | Challenge data => generate_challenge_questions data
  | EvaluateChallenge data => evaluate_challenge_answers data
  end.

(** The world after a sequence of requests. *)
Definition run (rs : list request) (w : world) : world :=
  fold_left (λ w r, (handle r w).2) rs w.

End Handlers.


(** * Vocabulary of the properties *)

(** The pieces of a text, put one after the other. *)
Definition join (pieces : list string) : string :=
  foldr String.append "" pieces.

(** A line is blank when all its characters are white space. *)
Fixpoint blank (s : string) : bool :=
  match s with
  | "" => true
  | String c s' => isspace c && blank s'
  end.

(** What one page adds to the extracted text. *)
Definition page_output (page_num : nat) (page_text : string) : string :=
  join (imap (pdf_line page_num) (split LF page_text)).

(** The world after one more request to the remote service. *)
Definition after_request (prompt : string) (config : option generation_config)
    (w : world) : world :=
  {| document_content := document_content w;
     sent := (prompt, config) :: sent w;
     recursion_limit := recursion_limit w |}.

(** The world after [document_content[name] = text]. *)
Definition after_store (name text : string) (w : world) : world :=
  {| document_content := <[name := text]> (document_content w);
     sent := sent w;
     recursion_limit := recursion_limit w |}.

(** The remote call errors or returns no usable content: no candidate, or
    a first candidate without content part. *)
Definition no_usable_content (r : remote_result) : Prop :=
  r = RemoteRaises
  ∨ r = RemoteResponse []
  ∨ ∃ candidates, r = RemoteResponse ({| parts := [] |} :: candidates).

(** The response of [upload_document] once the summary call is back. *)
Definition summary_response (summary : option string) : response :=
  match summary with
  | Some (String c s) =>
      (Summary "File uploaded and summarized successfully" (String c s), 200)
  | _ => (Error "Failed to generate summary", 500)
  end.

(** The response of [ask_question] once the answer call is back. *)
Definition answer_response (answer : option string) : response :=
  match answer with
  | Some (String c s) => (Answer (String c s), 200)
  | _ => (Error "Failed to get an answer from the assistant", 500)
  end.

(** The response of [generate_challenge_questions] once its call is back,
    when the decoder may nest [depth] deep. *)
Definition questions_response (depth : nat)
    (questions_json_str : option string) : response :=
  match questions_json_str with
  | Some (String c s) =>
      match Json.loads depth (String c s) with
      | Json.Decoded questions => (Questions questions, 200)
      | Json.Raises Json.JSONDecodeError =>
          (Error "Invalid JSON from assistant", 500)
      | Json.Raises _ => unhandled
      end
  | _ => (Error "Failed to generate challenge questions", 500)
  end.

(** The feedback for the question [question] at index [index], when its
    call is the one numbered [call] of the remote service. *)
Definition item_feedback
    (gen : nat → string → option generation_config → remote_result)
    (doc_text : string) (user_answers : gmap string string)
    (call index : nat) (question : string) : string :=
  evaluation_or_default
    (response_text
       (gen call
          (evaluate_prompt (default "" (user_answers !! str index))
             question doc_text)
          None)).

(** An upload that reaches [document_content[filename] = extracted_text]. *)
Definition stores (file : upload_file) : bool :=
  truthy (filename file) && allowed_file (filename file) && saved file
  && truthy_opt (extract_by_extension file).

(** Every stored text is a non-empty string. *)
Definition store_nonempty (w : world) : Prop :=
  ∀ name text, document_content w !! name = Some text → truthy text = true.

(** The request is an upload of a file named [name]. *)
Definition uploads_as (name : string) (r : request) : Prop :=
  ∃ f, r = Upload (Some f) ∧ filename f = name.

(** All the characters of [s] satisfy [p]. *)
Fixpoint every (p : ascii → bool) (s : string) : bool :=
  match s with
  | "" => true
  | String c s' => p c && every p s'
  end.

(** A decimal digit. *)
Definition isdigit (c : ascii) : bool :=
  let n := N_of_ascii c in ((48 <=? n) && (n <=? 57))%N.

(** A line with its terminator: a body without newline, then a newline. *)
Definition terminated (s : string) : Prop :=
  ∃ body, s = body +:+ nl ∧ contains LF body = false.

(** A last line without terminator: not empty and without newline. *)
Definition unterminated (s : string) : Prop :=
  s ≠ "" ∧ contains LF s = false.

(** The lines of a text: every line but the last is terminated, and the
    last is terminated or unterminated. *)
Fixpoint well_lined (l : list string) : Prop :=
  match l with
  | [] => True
  | [x] => terminated x ∨ unterminated x
  | x :: l' => terminated x ∧ well_lined l'
  end.

(** The line of the extracted text for line [i] of page [page_num],
    without its newline. *)
Definition pdf_tagged (page_num i : nat) (line : string) : string :=
  if truthy (strip line)
  then "[Page " +:+ str (page_num + 1) +:+ ", Line " +:+ str (i + 1) +:+ "] "
       +:+ line
  else "".

(** The prompt ends with the whole text of a stored document. *)
Definition grounded (w : world) (prompt : string) : Prop :=
  ∃ name text, document_content w !! name = Some text ∧ truthy text = true
    ∧ endswith prompt ("Document content: " +:+ text) = true.


(** What the handlers use of the result of a call: its text when there is
    one and it is not empty. *)
Definition usable (r : remote_result) : option string :=
  match response_text r with
  | Some (String c s) => Some (String c s)
  | _ => None
  end.


(** The number of remote calls a request may make. *)
Definition calls_allowed (r : request) : nat :=
  match r with
  | EvaluateChallenge data => length (default [] (questions data))
  | _ => 1
  end.

(** The output-shape constraint the requests of a handler carry. *)
Definition config_of (r : request) : option generation_config :=
  match r with
  | Challenge _ => Some challenge_config
  | _ => None
  end.

(** ** Concrete requests and services *)

(** The file of the scenario: lines Hello, (blank), World. *)
Definition notes : upload_file :=
  {| filename := "notes.txt"; saved := true; as_pdf := None;
     as_txt := Some ("Hello" +:+ nl +:+ nl +:+ "World" +:+ nl) |}.

Definition notes_text : string :=
  "[Line 1] Hello" +:+ nl +:+ nl +:+ "[Line 3] World" +:+ nl.

(** A service that always raises. *)
Definition silent : nat → string → option generation_config → remote_result :=
  λ _ _ _, RemoteRaises.


(** A service that raises on its call number 2 and answers otherwise. *)
Definition flaky : nat → string → option generation_config → remote_result :=
  λ n _ _, if Nat.eqb n 2 then RemoteRaises
           else RemoteResponse [ {| parts := ["Correct"] |} ].

(** The world once [notes] has been uploaded to a silent service. *)
Definition notes_world : world := run silent [Upload (Some notes)] initial_world.

Definition quiz (answers : gmap string string) : json_body :=
  {| query := None; documentName := Some "notes.txt";
     questions := Some ["Q1"; "Q2"; "Q3"]; userAnswers := Some answers |}.



Definition about (name : string) : json_body :=
  {| query := None; documentName := Some name;
     questions := None; userAnswers := None |}.

Definition asking (q name : string) : json_body :=
  {| query := Some q; documentName := Some name;
     questions := None; userAnswers := None |}.

(** A file named as a PDF whose bytes no reader can parse. *)
Definition corrupt_pdf : upload_file :=
  {| filename := "Paper.PDF"; saved := true; as_pdf := None; as_txt := None |}.

(** A second version of the notes, uploaded under the same name. *)
Definition notes_v2 : upload_file :=
  {| filename := "notes.txt"; saved := true; as_pdf := None;
     as_txt := Some "Bye" |}.

(** A service whose first candidate has no content part. *)
Definition partless : nat → string → option generation_config → remote_result :=
  λ _ _ _, RemoteResponse [ {| parts := [] |}; {| parts := ["late"] |} ].

(** * Properties *)

Ltac handler_step :=
  unfold bind, ret, get_document, set_document, get_gemini_response,
    get_recursion_limit, after_request, after_store; cbn.

(** ** Strings and loops *)

Lemma string_app_nil_r (s : string) : s +:+ "" = s.
Proof.
  induction s as [|c s IH]; [done|].
  change (String c (s +:+ "") = String c s). by rewrite IH.
Qed.

Lemma string_app_cons (c : ascii) (s1 s2 : string) :
  String c s1 +:+ s2 = String c (s1 +:+ s2).
Proof. reflexivity. Qed.

Lemma string_app_assoc (s1 s2 s3 : string) :
  (s1 +:+ s2) +:+ s3 = s1 +:+ (s2 +:+ s3).
Proof.
  induction s1 as [|c s1 IH]; [done|]. by rewrite !string_app_cons, IH.
Qed.

Lemma enumerate_from_imap {A} (n : nat) (l : list A) :
  enumerate_from n l = imap (λ i x, (n + i, x)) l.
Proof.
  revert n. induction l as [|x l IH]; intros n; [done|].
  cbn [enumerate_from imap]. rewrite IH, Nat.add_0_r. f_equal.
  apply imap_ext. intros i y _. cbn. f_equal. lia.
Qed.

Lemma enumerate_lookup {A} (l : list A) (i : nat) :
  enumerate l !! i = (λ x, (i, x)) <$> l !! i.
Proof. unfold enumerate. by rewrite enumerate_from_imap, list_lookup_imap. Qed.

(** A loop that appends one piece per item builds the text of the pieces
    in order. *)
Lemma append_loop_join (f : nat → string → string) (l : list string)
    (n : nat) (text : string) :
  fold_left (λ text il, text +:+ f il.1 il.2) (enumerate_from n l) text
  = text +:+ join (imap (λ i, f (n + i)) l).
Proof.
  revert n text. induction l as [|x l IH]; intros n text.
  - cbn. by rewrite string_app_nil_r.
  - cbn [enumerate_from fold_left imap join foldr fst snd].
    rewrite IH, string_app_assoc, Nat.add_0_r. do 2 f_equal.
    fold (join (imap (λ i, f (S n + i)) l)).
    fold (join (imap ((λ i, f (n + i)) ∘ S) l)).
    f_equal. apply imap_ext. intros i y _. cbn. f_equal. lia.
Qed.

Lemma txt_lines_loop_join (lines : list string) :
  txt_lines_loop (enumerate lines) "" = join (imap txt_line lines).
Proof.
  unfold txt_lines_loop, enumerate.
  by rewrite (append_loop_join txt_line).
Qed.

Lemma pdf_lines_loop_join (page_num : nat) (lines : list string) (text : string) :
  pdf_lines_loop page_num (enumerate lines) text
  = text +:+ join (imap (pdf_line page_num) lines).
Proof.
  unfold pdf_lines_loop, enumerate.
  by rewrite (append_loop_join (pdf_line page_num)).
Qed.

Lemma pdf_pages_loop_join (pages : list page_result) (n : nat) (text : string) :
  pdf_pages_loop (enumerate_from n pages) text
  = (λ texts, text +:+ join (imap (λ p, page_output (n + p)) texts))
    <$> mapM page_text_or_empty pages.
Proof.
  revert n text. induction pages as [|page pages IH]; intros n text.
  - cbn. by rewrite string_app_nil_r.
  - cbn [enumerate_from pdf_pages_loop mapM].
    destruct (page_text_or_empty page) as [page_text|]; [|done].
    rewrite pdf_lines_loop_join, IH. cbn.
    destruct (mapM page_text_or_empty pages) as [texts|]; [|done].
    cbn. rewrite string_app_assoc, Nat.add_0_r. do 3 f_equal.
    fold (join (imap (λ p, page_output (S n + p)) texts)).
    fold (join (imap ((λ p, page_output (n + p)) ∘ S) texts)).
    f_equal. apply imap_ext. intros i y _. cbn. f_equal. lia.
Qed.

(** The lines of a text opened in text mode make up the text. *)
Lemma join_keepends (s : string) : join (keepends s) = s.
Proof.
  induction s as [|c s IH]; [done|].
  cbn [keepends]. destruct (Ascii.eqb_spec c LF) as [->|_].
  - cbn. fold (join (keepends s)). by rewrite IH.
  - destruct (keepends s) as [|h t]; cbn in *; by rewrite <- IH.
Qed.

(** ** Blank lines *)

Lemma lstrip_truthy (s : string) : truthy (lstrip s) = negb (blank s).
Proof.
  induction s as [|c s IH]; [done|]. cbn. by destruct (isspace c).
Qed.

Lemma blank_lstrip (s : string) : blank (lstrip s) = blank s.
Proof.
  induction s as [|c s IH]; [done|]. cbn.
  destruct (isspace c) eqn:Hc; [done|]. cbn. by rewrite Hc.
Qed.

Lemma blank_rev_app (s acc : string) :
  blank (String.rev_app s acc) = blank s && blank acc.
Proof.
  revert acc. induction s as [|c s IH]; intros acc; [done|].
  cbn. rewrite IH. cbn. by destruct (isspace c), (blank s), (blank acc).
Qed.

Lemma truthy_rev_app (s acc : string) :
  truthy (String.rev_app s acc) = truthy s || truthy acc.
Proof.
  revert acc. induction s as [|c s IH]; intros acc; [done|].
  cbn. rewrite IH. cbn. apply orb_true_r.
Qed.

(** A line is true once trimmed exactly when it is not blank. *)
Lemma strip_truthy (s : string) : truthy (strip s) = negb (blank s).
Proof.
  unfold strip, rstrip, String.rev.
  rewrite truthy_rev_app, orb_false_r, lstrip_truthy, blank_rev_app.
  by rewrite andb_true_r, blank_lstrip.
Qed.

(** ** Flat sources *)

(** C3. For a flat (TXT) source the extracted text is, line after line of
    the file, [[Line i] <line>] for a line that is not blank once trimmed,
    with [i] the 1-based position of the line among all the lines of the
    file, and a bare newline for a blank line (one with white space
    only); the lines of the file make up its content, so blank lines take
    numbers and the numbering never starts again.  The file of lines Hello, (blank), World extracts to
    [[Line 1] Hello], a newline, a newline, [[Line 3] World], a newline. *)
Theorem C3_txt_line_numbering :
  (∀ content : string,
      extract_text_from_txt (Some content)
      = Some (join (imap (λ i line,
                      if truthy (strip line)
                      then "[Line " +:+ str (i + 1) +:+ "] " +:+ line
                      else nl)
                    (readlines content)))
      ∧ join (readlines content) = translate_newlines content)
  ∧ (∀ line : string, truthy (strip line) = negb (blank line))
  ∧ readlines ("Hello" +:+ nl +:+ nl +:+ "World" +:+ nl)
    = ["Hello" +:+ nl; nl; "World" +:+ nl]
  ∧ extract_text_from_txt (Some ("Hello" +:+ nl +:+ nl +:+ "World" +:+ nl))
    = Some ("[Line 1] Hello" +:+ nl +:+ nl +:+ "[Line 3] World" +:+ nl).
Proof.
  split; [|split; [apply strip_truthy|split; reflexivity]].
  intros content. split.
  - unfold extract_text_from_txt. cbn zeta. by rewrite txt_lines_loop_join.
  - apply join_keepends.
Qed.

(** ** Paginated sources *)

Lemma pdf_pages_loop_app (l1 l2 : list (nat * page_result)) (text : string) :
  pdf_pages_loop (l1 ++ l2) text
  = pdf_pages_loop l1 text ≫= pdf_pages_loop l2.
Proof.
  revert text. induction l1 as [|[n page] l1 IH]; intros text; [done|].
  cbn [app pdf_pages_loop].
  destruct (page_text_or_empty page); [apply IH|done].
Qed.

Lemma enumerate_from_app {A} (n : nat) (l1 l2 : list A) :
  enumerate_from n (l1 ++ l2)
  = enumerate_from n l1 ++ enumerate_from (n + length l1) l2.
Proof.
  revert n. induction l1 as [|x l1 IH]; intros n; cbn.
  - by rewrite Nat.add_0_r.
  - rewrite IH. do 3 f_equal. lia.
Qed.

(** A page without text is read as the single empty line. *)
Lemma page_output_empty (page_num : nat) : page_output page_num "" = nl.
Proof. reflexivity. Qed.

(** Extraction gives no result exactly when reading a page raises. *)
Lemma extract_text_from_pdf_None (pages : list page_result) :
  extract_text_from_pdf (Some pages) = None ↔ PageError ∈ pages.
Proof.
  unfold extract_text_from_pdf, enumerate.
  rewrite pdf_pages_loop_join, fmap_None.
  induction pages as [|page pages IH]; cbn [mapM].
  - split; [done|]. by intros ?%elem_of_nil.
  - rewrite elem_of_cons.
    destruct page, (mapM page_text_or_empty pages);
      cbn in *; unfold mret, option_ret; intuition congruence.
Qed.

(** C4 as stated fails on the document whose only page yields no text:
    that page adds a bare newline to the output, where the document without
    pages extracts to the empty text. *)
Lemma C4_empty_page_counterexample :
  extract_text_from_pdf (Some [PageNoText]) = Some nl
  ∧ extract_text_from_pdf (Some []) = Some ""
  ∧ extract_text_from_pdf (Some [PageNoText]) ≠ extract_text_from_pdf (Some []).
Proof. split; [reflexivity|]. split; [reflexivity|]. discriminate. Qed.

(** C4, amended.  For a paginated (PDF) source the pages are read in order
    and the extracted text is, page after page and line after line of the
    text of the page, [[Page p, Line i] <line>] and a newline for a line
    that is not blank once trimmed, with [p] and [i] 1-based and [i]
    starting again on every page, and a bare newline for any other line.
    A page that yields no text raises no error and is read as one empty
    line: it adds exactly one bare newline to the output.  Extraction
    gives no result only when reading a page raises. *)
Theorem C4_pdf_page_line_numbering :
  (∀ pages : list page_result,
      extract_text_from_pdf (Some pages)
      = (λ texts : list string,
           join (imap (λ p page_text,
                   join (imap (λ i line,
                           if truthy (strip line)
                           then "[Page " +:+ str (p + 1) +:+ ", Line "
                                +:+ str (i + 1) +:+ "] " +:+ line +:+ nl
                           else nl)
                         (split LF page_text)))
                 texts))
        <$> mapM page_text_or_empty pages)
  ∧ (∀ pages : list page_result,
        extract_text_from_pdf (Some (pages ++ [PageNoText]))
        = (λ text, text +:+ nl) <$> extract_text_from_pdf (Some pages))
  ∧ (∀ pages : list page_result,
        extract_text_from_pdf (Some pages) = None ↔ PageError ∈ pages).
Proof.
  split; [|split].
  - intros pages. unfold extract_text_from_pdf, enumerate.
    rewrite pdf_pages_loop_join.
    by destruct (mapM page_text_or_empty pages).
  - intros pages. unfold extract_text_from_pdf, enumerate.
    rewrite enumerate_from_app, pdf_pages_loop_app.
    destruct (pdf_pages_loop (enumerate_from 0 pages) "") as [text|]; [|done].
    cbn [mbind option_bind enumerate_from pdf_pages_loop page_text_or_empty].
    by rewrite pdf_lines_loop_join.
  - apply extract_text_from_pdf_None.
Qed.

(** ** File names *)

Lemma split_two (c : ascii) (s : string) :
  contains c s = true → ∃ h x t, split c s = h :: x :: t.
Proof.
  induction s as [|d s IH]; [done|]. cbn [contains split].
  destruct (Ascii.eqb d c); cbn [orb].
  - intros _. destruct (split c s) as [|x t] eqn:Hs; [|by eauto].
    by destruct s as [|e s]; [|cbn in Hs; destruct (Ascii.eqb e c), (split c s)].
  - intros (h & x & t & ->)%IH. eauto.
Qed.

Lemma split_without (c : ascii) (s : string) :
  contains c s = false → split c s = [s].
Proof.
  induction s as [|d s IH]; [done|]. cbn [contains split].
  destruct (Ascii.eqb d c); cbn [orb]; [done|].
  by intros ->%IH.
Qed.

(** A name with a dot is what precedes its last dot, the dot, and the
    extension. *)
Lemma after_last_spec (c : ascii) (s : string) :
  contains c s = true → ∃ pre, s = pre +:+ String c (after_last c s).
Proof.
  unfold after_last. induction s as [|d s IH]; [done|].
  cbn [contains split]. destruct (Ascii.eqb_spec d c) as [->|_]; cbn [orb].
  - intros _. destruct (contains c s) eqn:Hc.
    + destruct (split_two c s Hc) as (h & x & t & Hs).
      destruct IH as [pre Hpre]; [done|]. exists (String c pre).
      rewrite string_app_cons. f_equal. rewrite Hpre at 1. by rewrite Hs.
    + exists "". by rewrite (split_without c s Hc).
  - intros Hc. destruct (split_two c s Hc) as (h & x & t & Hs).
    destruct IH as [pre Hpre]; [done|]. exists (String d pre).
    rewrite string_app_cons. f_equal. rewrite Hpre at 1. by rewrite Hs.
Qed.

Lemma lower_app (s1 s2 : string) : lower (s1 +:+ s2) = lower s1 +:+ lower s2.
Proof.
  induction s1 as [|c s1 IH]; [done|].
  rewrite string_app_cons. cbn [lower]. by rewrite IH.
Qed.

Lemma endswith_app (pre suffix : string) : endswith (pre +:+ suffix) suffix = true.
Proof.
  induction pre as [|c pre IH].
  - change (endswith suffix suffix = true).
    destruct suffix; cbn [endswith]; by rewrite String.eqb_refl.
  - rewrite string_app_cons. cbn [endswith]. rewrite IH. apply orb_true_r.
Qed.

(** An allowed file name selects one of the two extractors. *)
Lemma allowed_file_kind (name : string) :
  allowed_file name = true →
  endswith (lower name) ".pdf" = true ∨ endswith (lower name) ".txt" = true.
Proof.
  unfold allowed_file. intros [Hdot Hext]%andb_true_iff.
  apply bool_decide_eq_true in Hext.
  destruct (after_last_spec "." name Hdot) as [pre Hname].
  rewrite Hname, lower_app. cbn [lower].
  change (lower_char ".") with "."%char.
  unfold ALLOWED_EXTENSIONS in Hext.
  apply elem_of_union in Hext as [->%elem_of_singleton| ->%elem_of_singleton].
  - left. apply endswith_app.
  - right. apply endswith_app.
Qed.

(** ** The handlers, step by step *)

Lemma no_usable_content_text (r : remote_result) :
  no_usable_content r ↔ response_text r = None.
Proof.
  unfold no_usable_content. split.
  - by intros [->|[->|[cs ->]]].
  - destruct r as [|[|[[|text ps]] cs]]; cbn; [eauto..|done].
Qed.

Section HandlerSteps.

Variable gen : nat → string → option generation_config → remote_result.

Lemma get_gemini_response_step prompt config w :
  get_gemini_response gen prompt config w
  = (response_text (gen (length (sent w)) prompt config),
     after_request prompt config w).
Proof. reflexivity. Qed.

Lemma upload_document_extracted file w text :
  truthy (filename file) = true →
  allowed_file (filename file) = true →
  saved file = true →
  extract_by_extension file = Some text →
  truthy text = true →
  upload_document gen (Some file) w
  = (summary_response
       (response_text (gen (length (sent w)) (summary_prompt text) None)),
     after_request (summary_prompt text) None
       (after_store (filename file) text w)).
Proof.
  intros Hname Hallowed Hsaved Hext Htext. unfold upload_document.
  rewrite Hname, Hallowed, Hsaved, Hext. destruct text as [|c text]; [done|].
  handler_step.
  by destruct (response_text _) as [[|d s]|].
Qed.

Lemma upload_document_not_extracted file w :
  truthy (filename file) = true →
  allowed_file (filename file) = true →
  saved file = true →
  extract_by_extension file = None ∨ extract_by_extension file = Some "" →
  upload_document gen (Some file) w = (extraction_failed, w).
Proof.
  intros Hname Hallowed Hsaved Hext. unfold upload_document.
  rewrite Hname, Hallowed, Hsaved. by destruct Hext as [-> | ->].
Qed.

(** An allowed upload whose save raises: the exception reaches the
    framework before anything is read, stored or sent. *)
Lemma upload_document_unsaved file w :
  truthy (filename file) = true →
  allowed_file (filename file) = true →
  saved file = false →
  upload_document gen (Some file) w = (unhandled, w).
Proof.
  intros Hname Hallowed Hsaved. unfold upload_document.
  by rewrite Hname, Hallowed, Hsaved.
Qed.

Lemma ask_question_found data q name text w :
  query data = Some q → documentName data = Some name →
  truthy q = true → truthy name = true →
  document_content w !! name = Some text → truthy text = true →
  ask_question gen data w
  = (answer_response
       (response_text (gen (length (sent w)) (ask_prompt q text) None)),
     after_request (ask_prompt q text) None w).
Proof.
  intros Hq Hn Htq Htn Hdoc Htext. unfold ask_question.
  rewrite Hq, Hn, Htq, Htn. handler_step. rewrite Hdoc.
  destruct text as [|c text]; [done|]. cbn.
  by destruct (response_text _) as [[|d s]|].
Qed.

Lemma ask_question_not_found data q name w :
  query data = Some q → documentName data = Some name →
  truthy q = true → truthy name = true →
  truthy_opt (document_content w !! name) = false →
  ask_question gen data w
  = (not_found
       "Document content not found. Please upload the document again.", w).
Proof.
  intros Hq Hn Htq Htn Hdoc. unfold ask_question.
  rewrite Hq, Hn, Htq, Htn. handler_step. by rewrite Hdoc.
Qed.

Lemma generate_challenge_questions_found data name text w :
  documentName data = Some name → truthy name = true →
  document_content w !! name = Some text → truthy text = true →
  generate_challenge_questions gen data w
  = (questions_response (recursion_limit w)
       (response_text (gen (length (sent w)) (challenge_prompt text)
                         (Some challenge_config))),
     after_request (challenge_prompt text) (Some challenge_config) w).
Proof.
  intros Hn Htn Hdoc Htext. unfold generate_challenge_questions.
  rewrite Hn, Htn. handler_step. rewrite Hdoc.
  destruct text as [|c text]; [done|]. cbn.
  destruct (response_text _) as [[|d s]|]; [done| |done].
  cbn. by destruct (Json.loads _ _) as [v|[]].
Qed.

Lemma generate_challenge_questions_not_found data name w :
  documentName data = Some name → truthy name = true →
  truthy_opt (document_content w !! name) = false →
  generate_challenge_questions gen data w
  = (not_found "Document content not found.", w).
Proof.
  intros Hn Htn Hdoc. unfold generate_challenge_questions.
  rewrite Hn, Htn. handler_step. by rewrite Hdoc.
Qed.

End HandlerSteps.

(** ** The evaluation loop *)

Section EvaluateLoop.

Variable gen : nat → string → option generation_config → remote_result.

Lemma evaluate_loop_spec doc_text user_answers qs :
  ∀ n (fb : gmap nat string) w,
  ∃ fb' w',
    evaluate_loop gen doc_text user_answers (enumerate_from n qs) fb w
    = (fb', w')
    ∧ document_content w' = document_content w
    ∧ length (sent w') = length (sent w) + length qs
    ∧ (∀ j question, qs !! j = Some question →
         fb' !! (n + j)
         = Some (item_feedback gen doc_text user_answers
                   (length (sent w) + j) (n + j) question))
    ∧ (∀ i, i < n ∨ n + length qs ≤ i → fb' !! i = fb !! i).
Proof.
  induction qs as [|question qs IH]; intros n fb w.
  - exists fb, w. cbn. split_and!; [done|done|lia|done|done].
  - cbn [enumerate_from evaluate_loop]. unfold bind at 1.
    rewrite get_gemini_response_step.
    set (fb1 := <[n := _]> fb). set (w1 := after_request _ _ w).
    destruct (IH (S n) fb1 w1) as (fb' & w' & Hloop & Hdoc & Hsent & Hin & Hout).
    exists fb', w'. split_and!.
    + done.
    + by rewrite Hdoc.
    + rewrite Hsent. cbn. lia.
    + intros [|j] q Hq.
      * injection Hq as <-. rewrite Nat.add_0_r, Hout by lia.
        subst fb1. by rewrite lookup_insert_eq, Nat.add_0_r.
      * replace (n + S j) with (S n + j) by lia.
        rewrite (Hin j q Hq). do 2 f_equal. cbn. lia.
    + intros i Hi. rewrite Hout by (cbn in Hi; lia).
      subst fb1. apply lookup_insert_ne. cbn in Hi. lia.
Qed.

(** The response of [evaluate_challenge_answers] for a request that passes
    its checks on a stored document. *)
Lemma evaluate_challenge_answers_found data name qs ua text w :
  documentName data = Some name → questions data = Some qs →
  userAnswers data = Some ua →
  truthy name = true → qs ≠ [] → ua ≠ ∅ →
  document_content w !! name = Some text → truthy text = true →
  ∃ fb w',
    evaluate_challenge_answers gen data w = (Feedback fb, 200, w')
    ∧ evaluate_loop gen text ua (enumerate qs) ∅ w = (fb, w').
Proof.
  intros Hn Hqs Hua Htn Hne Hua' Hdoc Htext. unfold evaluate_challenge_answers.
  rewrite Hn, Hqs, Hua, Htn. destruct qs as [|q0 qs]; [done|].
  unfold truthy_dict. rewrite bool_decide_eq_false_2 by done.
  cbn [truthy_list negb orb]. unfold bind at 1, get_document at 1.
  rewrite Hdoc. destruct text as [|c text]; [done|].
  cbn [truthy_opt truthy negb default from_option id]. unfold bind, ret.
  destruct (evaluate_loop _ _ _ _ _ _) as [fb w']. by exists fb, w'.
Qed.

Lemma evaluate_challenge_answers_not_found data name qs ua w :
  documentName data = Some name → questions data = Some qs →
  userAnswers data = Some ua →
  truthy name = true → qs ≠ [] → ua ≠ ∅ →
  truthy_opt (document_content w !! name) = false →
  evaluate_challenge_answers gen data w
  = (not_found "Document content not found.", w).
Proof.
  intros Hn Hqs Hua Htn Hne Hua' Hdoc. unfold evaluate_challenge_answers.
  rewrite Hn, Hqs, Hua, Htn. destruct qs as [|q0 qs]; [done|].
  unfold truthy_dict. rewrite bool_decide_eq_false_2 by done.
  cbn [truthy_list negb orb]. unfold bind at 1, get_document at 1.
  by rewrite Hdoc.
Qed.

End EvaluateLoop.

(** ** Evaluation feedback *)

(** C1 as stated fails on a request with a stored document and three
    questions whose [userAnswers] mapping is empty: the handler answers
    [Missing data] with status 400 and returns no feedback mapping. *)
Lemma C1_no_answers_counterexample :
  document_content notes_world !! "notes.txt" = Some notes_text
  ∧ evaluate_challenge_answers silent (quiz ∅) notes_world
    = (Error "Missing data", 400, notes_world).
Proof. split; reflexivity. Qed.

(** C1, amended.  For every EvaluateChallenge request that passes the
    checks of the handler (a non-empty document name, a non-empty
    questions list of length [k] and a non-empty [userAnswers] mapping)
    and names a stored document, the response has status 200 and its
    feedback mapping has exactly [k] entries, keyed by the 0-based
    positions of the questions; the entry of a question is decided by the
    generation call of that question alone: it is the text the call
    returned, and the literal [Evaluation not available.] when the call
    returned no result. *)
Theorem C1_feedback_entries gen data name qs ua text w :
  documentName data = Some name → questions data = Some qs →
  userAnswers data = Some ua →
  truthy name = true → qs ≠ [] → ua ≠ ∅ →
  document_content w !! name = Some text → truthy text = true →
  ∃ fb w',
    evaluate_challenge_answers gen data w = (Feedback fb, 200, w')
    ∧ size fb = length qs
    ∧ dom fb = set_seq 0 (length qs)
    ∧ (∀ i question, qs !! i = Some question →
         let evaluation :=
           response_text
             (gen (length (sent w) + i)
                (evaluate_prompt (default "" (ua !! str i)) question text)
                None) in
         fb !! i = Some (evaluation_or_default evaluation)
         ∧ (evaluation = None → fb !! i = Some "Evaluation not available.")).
Proof.
  intros Hn Hqs Hua Htn Hne Hua' Hdoc Htext.
  destruct (evaluate_challenge_answers_found gen data name qs ua text w)
    as (fb & w' & Hresp & Hloop); [done..|].
  destruct (evaluate_loop_spec gen text ua qs 0 ∅ w)
    as (fb2 & w2 & Hloop2 & _ & _ & Hin & Hout).
  unfold enumerate in Hloop. rewrite Hloop in Hloop2.
  injection Hloop2 as <- <-.
  assert (Hdom : dom fb = set_seq 0 (length qs)).
  { apply set_eq. intros i. rewrite elem_of_dom, elem_of_set_seq.
    destruct (decide (i < length qs)) as [Hi|Hi].
    - destruct (lookup_lt_is_Some_2 qs i Hi) as [question Hq].
      specialize (Hin i question Hq). cbn in Hin. rewrite Hin.
      split; [lia|eauto].
    - rewrite Hout, lookup_empty by lia. split; [by intros [? ?]|lia]. }
  exists fb, w'. split_and!; [done| |done|].
  - by rewrite <- size_dom, Hdom, size_set_seq.
  - intros i question Hq. cbn zeta.
    specialize (Hin i question Hq). cbn in Hin. rewrite Hin.
    split; [done|]. unfold item_feedback. by intros ->.
Qed.

Lemma C1_feedback_entries_witness :
  ∃ fb w',
    evaluate_challenge_answers flaky (quiz {[ "0" := "yes" ]}) notes_world
    = (Feedback fb, 200, w')
    ∧ size fb = 3
    ∧ fb !! 0 = Some "Correct"
    ∧ fb !! 1 = Some "Evaluation not available."
    ∧ fb !! 2 = Some "Correct".
Proof.
  destruct (C1_feedback_entries flaky (quiz {[ "0" := "yes" ]}) "notes.txt"
              ["Q1"; "Q2"; "Q3"] {[ "0" := "yes" ]} notes_text notes_world)
    as (fb & w' & Hresp & Hsize & _ & Hitem);
    [reflexivity| reflexivity | reflexivity | reflexivity | discriminate
    | apply insert_non_empty | reflexivity | reflexivity |].
  exists fb, w'. split_and!; [exact Hresp | exact Hsize | | | ].
  - exact (proj1 (Hitem 0 "Q1" eq_refl)).
  - exact (proj2 (Hitem 1 "Q2" eq_refl) eq_refl).
  - exact (proj1 (Hitem 2 "Q3" eq_refl)).
Defined.

(** ** The JSON scanner and its fuel *)

Module JsonFacts.

Import Json.

Lemma skip_ws_length (s : string) : String.length (skip_ws s) ≤ String.length s.
Proof.
  induction s as [|c s IH]; [done|]. cbn.
  destruct (is_ws c); cbn; lia.
Qed.

Lemma span_digits_length (s ds r : string) :
  span_digits s = (ds, r) → String.length r ≤ String.length s.
Proof.
  revert ds r. induction s as [|c s IH]; intros ds r; cbn.
  - by intros [= <- <-].
  - destruct (is_digit c); [|intros [= <- <-]; cbn; lia].
    destruct (span_digits s) as [ds' r'] eqn:Hs. intros [= <- <-].
    specialize (IH ds' r' eq_refl). lia.
Qed.

Lemma strip_prefix_length (p s r : string) :
  strip_prefix p s = Some r → String.length s = String.length p + String.length r.
Proof.
  revert s. induction p as [|a p IH]; intros s; cbn.
  - by intros [= <-].
  - destruct s as [|b s]; [done|]. destruct (Ascii.eqb a b); [|done].
    intros H%IH. cbn. lia.
Qed.

Lemma push_Some u o cs r :
  push u o = Some (cs, r) → ∃ cs', o = Some (cs', r).
Proof. destruct o as [[cs' r']|]; cbn; [|done]. intros [= <- <-]. eauto. Qed.

Lemma scan_string_length_aux (n : nat) :
  ∀ s cs r, String.length s ≤ n →
    scan_string s = Some (cs, r) → String.length r < String.length s.
Proof.
  induction n as [|n IH]; intros s cs r Hn.
  - destruct s; [done|cbn in Hn; lia].
  - destruct s as [|c s1]; [done|]. cbn [scan_string].
    cbn in Hn.
    repeat (case_match; try done; subst; cbn in Hn);
      try (intros [= <- <-]; cbn; lia);
      intros (cs' & Hrec)%push_Some;
      apply IH in Hrec; cbn in *; lia.
Qed.

Lemma scan_string_length s cs r :
  scan_string s = Some (cs, r) → String.length r < String.length s.
Proof. by apply (scan_string_length_aux (String.length s)). Qed.

Lemma scan_number_length s v r :
  scan_number s = Scanned v r → String.length r < String.length s.
Proof.
  unfold scan_number.
  repeat (case_match; try done; simplify_eq);
    repeat match goal with
      | H : span_digits _ = _ |- _ => apply span_digits_length in H
      end;
    intros [= <- <-]; cbn in *; lia.
Qed.

Lemma scan_atom_length s v r :
  scan_atom s = Scanned v r → String.length r < String.length s.
Proof.
  unfold scan_atom.
  repeat (case_match; try done; simplify_eq);
    try (intros [= <- <-]);
    repeat match goal with
      | H : strip_prefix _ _ = Some _ |- _ => apply strip_prefix_length in H
      end; cbn in *; try lia.
  apply scan_number_length.
Qed.

Lemma or_decode_error_Scanned {A} (o : option (A * string)) a r :
  or_decode_error o = Scanned a r → o = Some (a, r).
Proof. destruct o as [[a' r']|]; cbn; [|done]. by intros [= <- <-]. Qed.

Ltac scan_unfold :=
  cbn [scan_once scan_items scan_members]; unfold scan_bind.

Ltac skip_facts :=
  repeat match goal with
    | H : skip_ws ?x = ?y |- _ =>
        let L := fresh "L" in
        pose proof (skip_ws_length x) as L; rewrite H in L; clear H
    | H : context [skip_ws ?x] |- _ =>
        lazymatch goal with
        | _ : String.length (skip_ws x) ≤ String.length x |- _ => fail
        | _ => pose proof (skip_ws_length x)
        end
    | |- context [skip_ws ?x] =>
        lazymatch goal with
        | _ : String.length (skip_ws x) ≤ String.length x |- _ => fail
        | _ => pose proof (skip_ws_length x)
        end
    end.

(** A scanner that gives a result has read at least one character. *)
Lemma scan_progress (fuel : nat) :
  (∀ depth s v r, scan_once fuel depth s = Scanned v r →
      String.length r < String.length s)
  ∧ (∀ depth s vs r, scan_items fuel depth s = Scanned vs r →
        String.length r < String.length s)
  ∧ (∀ depth s ms r, scan_members fuel depth s = Scanned ms r →
        String.length r < String.length s).
Proof.
  induction fuel as [|fuel (IHonce & IHitems & IHmembers)]; [done|].
  split_and!; intros depth s ? r; scan_unfold.
  - destruct s as [|c s1]; [done|].
    repeat (case_match; try done; simplify_eq);
      try (intros [= <- <-]);
      repeat match goal with
        | H : or_decode_error _ = Scanned _ _ |- _ =>
            apply or_decode_error_Scanned in H
        | H : scan_string _ = Some _ |- _ => apply scan_string_length in H
        | H : scan_items fuel _ _ = Scanned _ _ |- _ => apply IHitems in H
        | H : scan_members fuel _ _ = Scanned _ _ |- _ => apply IHmembers in H
        end;
      skip_facts; cbn [String.length] in *; try lia.
    intros Hatom%scan_atom_length. cbn [String.length] in *; lia.
  - repeat (case_match; try done; simplify_eq);
      try (intros [= <- <-]);
      repeat match goal with
        | H : scan_once fuel _ _ = Scanned _ _ |- _ => apply IHonce in H
        | H : scan_items fuel _ _ = Scanned _ _ |- _ => apply IHitems in H
        end;
      skip_facts; cbn [String.length] in *; lia.
  - repeat (case_match; try done; simplify_eq);
      try (intros [= <- <-]);
      repeat match goal with
        | H : or_decode_error _ = Scanned _ _ |- _ =>
            apply or_decode_error_Scanned in H
        | H : scan_string _ = Some _ |- _ => apply scan_string_length in H
        | H : scan_once fuel _ _ = Scanned _ _ |- _ => apply IHonce in H
        | H : scan_members fuel _ _ = Scanned _ _ |- _ => apply IHmembers in H
        end;
      skip_facts; cbn [String.length] in *; lia.
Qed.

(** Past twice the length of the text, more fuel changes nothing. *)
Lemma scan_fuel (fuel : nat) :
  (∀ depth s fuel', 2 * String.length s + 1 ≤ fuel → fuel ≤ fuel' →
      scan_once fuel' depth s = scan_once fuel depth s)
  ∧ (∀ depth s fuel', 2 * String.length s + 2 ≤ fuel → fuel ≤ fuel' →
        scan_items fuel' depth s = scan_items fuel depth s)
  ∧ (∀ depth s fuel', 2 * String.length s + 2 ≤ fuel → fuel ≤ fuel' →
        scan_members fuel' depth s = scan_members fuel depth s).
Proof.
  induction fuel as [|fuel (IHonce & IHitems & IHmembers)];
    [split_and!; intros; lia|].
  split_and!; intros depth s [|fuel'] Hs Hfuel; try lia; scan_unfold.
  - destruct s as [|c s1]; [done|]. cbn [String.length] in Hs.
    destruct (Ascii.eqb c quote); [done|].
    destruct (Ascii.eqb c "{").
    { destruct depth as [|depth]; [done|].
      destruct (skip_ws s1) as [|c2 r0] eqn:Hs1; [done|].
      destruct (Ascii.eqb c2 "}"); [done|].
      rewrite (IHmembers _ _ fuel'); [done| |lia].
      skip_facts. cbn [String.length] in *. lia. }
    destruct (Ascii.eqb c "["); [|done].
    destruct depth as [|depth]; [done|].
    destruct (skip_ws s1) as [|c2 r0] eqn:Hs1; [done|].
    destruct (Ascii.eqb c2 "]"); [done|].
    rewrite (IHitems _ _ fuel'); [done| |lia].
    skip_facts. cbn [String.length] in *. lia.
  - rewrite (IHonce depth s fuel') by lia.
    destruct (scan_once fuel depth s) as [v r|] eqn:Hv; [|done].
    apply (proj1 (scan_progress fuel)) in Hv.
    destruct (skip_ws r) as [|c r1] eqn:Hr; [done|].
    destruct (Ascii.eqb c "]"); [done|].
    destruct (Ascii.eqb c ","); [|done].
    rewrite (IHitems _ _ fuel'); [done| |lia].
    skip_facts. cbn [String.length] in *. lia.
  - destruct s as [|c s1]; [done|]. cbn [String.length] in Hs.
    destruct (Ascii.eqb c quote); [|done].
    destruct (scan_string s1) as [[k r]|] eqn:Hk; [|done].
    apply scan_string_length in Hk. cbn [or_decode_error].
    destruct (skip_ws r) as [|c1 r1] eqn:Hr; [done|].
    destruct (Ascii.eqb c1 ":"); [|done].
    assert (String.length (skip_ws r1) < String.length s1) as Hr1.
    { skip_facts. cbn [String.length] in *. lia. }
    rewrite (IHonce _ _ fuel') by lia.
    destruct (scan_once fuel depth (skip_ws r1)) as [v r2|] eqn:Hv; [|done].
    apply (proj1 (scan_progress fuel)) in Hv.
    destruct (skip_ws r2) as [|e r3] eqn:Hr2; [done|].
    destruct (Ascii.eqb e "}"); [done|].
    destruct (Ascii.eqb e ","); [|done].
    rewrite (IHmembers _ _ fuel'); [done| |lia].
    skip_facts. cbn [String.length] in *. lia.
Qed.

(** The decoder has fuel to spare: any larger amount gives its result. *)
Lemma loads_fuel (depth : nat) (s : string) (fuel : nat) :
  2 * String.length s + 2 ≤ fuel →
  loads depth s
  = match scan_once fuel depth (skip_ws s) with
    | Scanned v r =>
        match skip_ws r with
        | "" => Decoded v
        | String _ _ => Raises JSONDecodeError
        end
    | Raised e => Raises e
    end.
Proof.
  intros Hfuel. unfold loads.
  rewrite <- (proj1 (scan_fuel (2 * String.length s + 2)) depth (skip_ws s) fuel);
    [done| |done].
  pose proof (skip_ws_length s). lia.
Qed.






End JsonFacts.

(** ** Challenge questions *)




(** ** What the handlers do to the store, and where a 404 comes from *)

Section StoreSteps.

Variable gen : nat → string → option generation_config → remote_result.

Lemma upload_document_cases file w :
  match file with
  | Some f =>
      if stores f
      then ∃ text, extract_by_extension f = Some text ∧ truthy text = true
           ∧ upload_document gen file w
             = (summary_response
                  (response_text
                     (gen (length (sent w)) (summary_prompt text) None)),
                after_request (summary_prompt text) None
                  (after_store (filename f) text w))
      else (upload_document gen file w).2 = w
           ∧ (upload_document gen file w).1.2 ≠ 404
  | None => upload_document gen file w = (Error "No file part", 400, w)
  end.
Proof.
  destruct file as [f|]; [|done]. unfold stores.
  destruct (truthy (filename f)) eqn:Hname; cbn [andb];
    [|by unfold upload_document; rewrite Hname].
  destruct (allowed_file (filename f)) eqn:Hallowed; cbn [andb];
    [|by unfold upload_document; rewrite Hname, Hallowed].
  destruct (saved f) eqn:Hsaved; cbn [andb];
    [|by rewrite (upload_document_unsaved gen f w)].
  destruct (extract_by_extension f) as [text|] eqn:Hext; cbn [truthy_opt].
  - destruct (truthy text) eqn:Htext.
    + exists text. by rewrite (upload_document_extracted gen f w text).
    + destruct text; [|done].
      by rewrite (upload_document_not_extracted gen f w); auto.
  - by rewrite (upload_document_not_extracted gen f w); auto.
Qed.

Lemma summary_response_status summary : (summary_response summary).2 ≠ 404.
Proof. by destruct summary as [[|c s]|]. Qed.

Lemma upload_document_status file w : (upload_document gen file w).1.2 ≠ 404.
Proof.
  pose proof (upload_document_cases file w) as H.
  destruct file as [f|]; [|by rewrite H].
  destruct (stores f); [|by destruct H].
  destruct H as (text & _ & _ & ->). apply summary_response_status.
Qed.

Lemma ask_question_cases data w :
  (ask_question gen data w
   = (Error "Missing query or document name", 400, w))
  ∨ (∃ name, documentName data = Some name
       ∧ truthy_opt (document_content w !! name) = false
       ∧ ask_question gen data w
         = (not_found
              "Document content not found. Please upload the document again.",
            w))
  ∨ (∃ q name text, query data = Some q ∧ documentName data = Some name
       ∧ document_content w !! name = Some text ∧ truthy text = true
       ∧ ask_question gen data w
         = (answer_response
              (response_text
                 (gen (length (sent w)) (ask_prompt q text) None)),
            after_request (ask_prompt q text) None w)).
Proof.
  destruct (query data) as [q|] eqn:Hq;
    [|left; unfold ask_question; by rewrite Hq].
  destruct (documentName data) as [name|] eqn:Hn;
    [|left; unfold ask_question; by rewrite Hq, Hn].
  destruct (truthy q) eqn:Htq;
    [|left; unfold ask_question; by rewrite Hq, Hn, Htq].
  destruct (truthy name) eqn:Htn;
    [|left; unfold ask_question; by rewrite Hq, Hn, Htq, Htn].
  destruct (truthy_opt (document_content w !! name)) eqn:Hdoc.
  - right; right. destruct (document_content w !! name) as [text|] eqn:Hlook;
      [|done].
    exists q, name, text. split_and!; [done..|].
    by apply (ask_question_found gen data q name text w).
  - right; left. exists name. split_and!; [done..|].
    by apply (ask_question_not_found gen data q name).
Qed.

Lemma generate_challenge_questions_cases data w :
  (generate_challenge_questions gen data w
   = (Error "Missing document name", 400, w))
  ∨ (∃ name, documentName data = Some name
       ∧ truthy_opt (document_content w !! name) = false
       ∧ generate_challenge_questions gen data w
         = (not_found "Document content not found.", w))
  ∨ (∃ name text, documentName data = Some name
       ∧ document_content w !! name = Some text ∧ truthy text = true
       ∧ generate_challenge_questions gen data w
         = (questions_response (recursion_limit w)
              (response_text
                 (gen (length (sent w)) (challenge_prompt text)
                    (Some challenge_config))),
            after_request (challenge_prompt text) (Some challenge_config) w)).
Proof.
  destruct (documentName data) as [name|] eqn:Hn;
    [|left; unfold generate_challenge_questions; by rewrite Hn].
  destruct (truthy name) eqn:Htn;
    [|left; unfold generate_challenge_questions; by rewrite Hn, Htn].
  destruct (truthy_opt (document_content w !! name)) eqn:Hdoc.
  - right; right. destruct (document_content w !! name) as [text|] eqn:Hlook;
      [|done].
    exists name, text. split_and!; [done..|].
    by apply (generate_challenge_questions_found gen data name text w).
  - right; left. exists name. split_and!; [done..|].
    by apply (generate_challenge_questions_not_found gen data name w).
Qed.

Lemma evaluate_challenge_answers_cases data w :
  (evaluate_challenge_answers gen data w = (Error "Missing data", 400, w))
  ∨ (∃ name, documentName data = Some name
       ∧ truthy_opt (document_content w !! name) = false
       ∧ evaluate_challenge_answers gen data w
         = (not_found "Document content not found.", w))
  ∨ (∃ fb w', evaluate_challenge_answers gen data w = (Feedback fb, 200, w')
       ∧ document_content w' = document_content w).
Proof.
  destruct (documentName data) as [name|] eqn:Hn;
    [|left; unfold evaluate_challenge_answers; by rewrite Hn].
  destruct (questions data) as [qs|] eqn:Hqs;
    [|left; unfold evaluate_challenge_answers; by rewrite Hn, Hqs].
  destruct (userAnswers data) as [ua|] eqn:Hua;
    [|left; unfold evaluate_challenge_answers; by rewrite Hn, Hqs, Hua].
  destruct (truthy name) eqn:Htn;
    [|left; unfold evaluate_challenge_answers; by rewrite Hn, Hqs, Hua, Htn].
  destruct qs as [|q0 qs];
    [left; unfold evaluate_challenge_answers; by rewrite Hn, Hqs, Hua, Htn|].
  destruct (decide (ua = ∅)) as [->|Hne].
  { left. unfold evaluate_challenge_answers. by rewrite Hn, Hqs, Hua, Htn. }
  destruct (truthy_opt (document_content w !! name)) eqn:Hdoc.
  - right; right. destruct (document_content w !! name) as [text|] eqn:Hlook;
      [|done].
    destruct (evaluate_challenge_answers_found gen data name (q0 :: qs) ua
                text w) as (fb & w' & Hresp & Hloop); [done..|].
    exists fb, w'. split; [done|].
    destruct (evaluate_loop_spec gen text ua (q0 :: qs) 0 ∅ w)
      as (fb2 & w2 & Hloop2 & Hstore & _).
    unfold enumerate in Hloop. rewrite Hloop in Hloop2.
    by injection Hloop2 as <- <-.
  - right; left. exists name. split_and!; [done..|].
    by apply (evaluate_challenge_answers_not_found gen data name (q0 :: qs) ua).
Qed.

End StoreSteps.

Section Server.

Variable gen : nat → string → option generation_config → remote_result.

Lemma answer_response_status answer : (answer_response answer).2 ≠ 404.
Proof. by destruct answer as [[|c s]|]. Qed.

Lemma questions_response_status depth text :
  (questions_response depth text).2 ≠ 404.
Proof.
  destruct text as [[|c s]|]; cbn; [done| |done].
  by destruct (Json.loads _ _) as [v|[]].
Qed.

(** Only an upload that reaches the store changes it. *)
Lemma handle_document_content r w :
  document_content (handle gen r w).2
  = match r with
    | Upload (Some f) =>
        if stores f
        then <[filename f := default "" (extract_by_extension f)]>
               (document_content w)
        else document_content w
    | _ => document_content w
    end.
Proof.
  destruct r as [file|data|data|data]; cbn [handle].
  - pose proof (upload_document_cases gen file w) as H.
    destruct file as [f|]; [|by rewrite H].
    destruct (stores f); [|by destruct H as [-> _]].
    by destruct H as (text & -> & _ & ->).
  - by destruct (ask_question_cases gen data w)
      as [->|[(? & _ & _ & ->)|(? & ? & ? & _ & _ & _ & _ & ->)]].
  - by destruct (generate_challenge_questions_cases gen data w)
      as [->|[(? & _ & _ & ->)|(? & ? & _ & _ & _ & ->)]].
  - by destruct (evaluate_challenge_answers_cases gen data w)
      as [->|[(? & _ & _ & ->)|(? & ? & -> & ?)]].
Qed.

Lemma handle_store_nonempty r w :
  store_nonempty w → store_nonempty (handle gen r w).2.
Proof.
  intros Hw name text. rewrite handle_document_content.
  destruct r as [[f|]|data|data|data]; try apply Hw.
  destruct (stores f) eqn:Hf; [|apply Hw].
  destruct (decide (filename f = name)) as [<-|Hne].
  - rewrite lookup_insert_eq. intros [= <-].
    unfold stores in Hf. apply andb_true_iff in Hf as [_ Hf].
    by destruct (extract_by_extension f).
  - rewrite lookup_insert_ne by done. apply Hw.
Qed.

Lemma run_cons r rs w : run gen (r :: rs) w = run gen rs (handle gen r w).2.
Proof. reflexivity. Qed.

Lemma run_store_nonempty rs w :
  store_nonempty w → store_nonempty (run gen rs w).
Proof.
  revert w. induction rs as [|r rs IH]; intros w Hw; [done|].
  rewrite run_cons. apply IH. by apply handle_store_nonempty.
Qed.

(** Requests other than uploads under [name] leave the entry of [name]. *)
Lemma run_lookup_other name rs w :
  Forall (λ r, ¬ uploads_as name r) rs →
  document_content (run gen rs w) !! name = document_content w !! name.
Proof.
  revert w. induction rs as [|r rs IH]; intros w Hrs; [done|].
  apply Forall_cons in Hrs as [Hr Hrs]. rewrite run_cons, IH by done.
  rewrite handle_document_content.
  destruct r as [[f|]|data|data|data]; try done.
  destruct (stores f); [|done].
  apply lookup_insert_ne. intros Hname. apply Hr. by exists f.
Qed.

End Server.

(** ** Unknown documents *)

(** C6 as stated fails on an Ask request that names a document absent
    from the store and has no [query]: the handler answers
    [Missing query or document name] with status 400, not NotFound. *)
Lemma C6_missing_query_counterexample :
  document_content initial_world !! "missing.pdf" = None
  ∧ ask_question silent (about "missing.pdf") initial_world
    = (Error "Missing query or document name", 400, initial_world).
Proof. split; reflexivity. Qed.

(** C6, amended.  For every Ask, Challenge or EvaluateChallenge request
    that passes the input checks of its handler (every required field
    present and non-empty) and names a document identifier absent from
    the store, the operation signals NotFound: an error body with status
    404, and neither the store nor the remote service is touched.  The
    outcome is distinguishable from extraction and generation failures:
    no Upload response has status 404, and no response for a stored
    document has status 404, whatever the remote service does. *)
Theorem C6_not_found gen data name w :
  documentName data = Some name → truthy name = true →
  document_content w !! name = None →
  (∀ q, query data = Some q → truthy q = true →
        ask_question gen data w
        = (Error "Document content not found. Please upload the document again.",
           404, w))
  ∧ generate_challenge_questions gen data w
    = (Error "Document content not found.", 404, w)
  ∧ (∀ qs ua, questions data = Some qs → userAnswers data = Some ua →
        qs ≠ [] → ua ≠ ∅ →
        evaluate_challenge_answers gen data w
        = (Error "Document content not found.", 404, w))
  ∧ (∀ file w0, (upload_document gen file w0).1.2 ≠ 404)
  ∧ (∀ data0 name0 text w0,
        documentName data0 = Some name0 →
        document_content w0 !! name0 = Some text → truthy text = true →
        (ask_question gen data0 w0).1.2 ≠ 404
        ∧ (generate_challenge_questions gen data0 w0).1.2 ≠ 404
        ∧ (evaluate_challenge_answers gen data0 w0).1.2 ≠ 404).
Proof.
  intros Hn Htn Hdoc. split_and!.
  - intros q Hq Htq. apply (ask_question_not_found gen data q name); try done.
    by rewrite Hdoc.
  - apply (generate_challenge_questions_not_found gen data name); try done.
    by rewrite Hdoc.
  - intros qs ua Hqs Hua Hne Hua'.
    apply (evaluate_challenge_answers_not_found gen data name qs ua); try done.
    by rewrite Hdoc.
  - apply upload_document_status.
  - intros data0 name0 text w0 Hn0 Hdoc0 Htext. split_and!.
    + destruct (ask_question_cases gen data0 w0)
        as [->|[(n & Hn' & Hfalse & _)|(? & ? & ? & _ & _ & _ & _ & ->)]];
        [done| |apply answer_response_status].
      rewrite Hn0 in Hn'. injection Hn' as <-.
      by rewrite Hdoc0 in Hfalse; cbn in Hfalse; rewrite Htext in Hfalse.
    + destruct (generate_challenge_questions_cases gen data0 w0)
        as [->|[(n & Hn' & Hfalse & _)|(? & ? & _ & _ & _ & ->)]];
        [done| |apply questions_response_status].
      rewrite Hn0 in Hn'. injection Hn' as <-.
      by rewrite Hdoc0 in Hfalse; cbn in Hfalse; rewrite Htext in Hfalse.
    + destruct (evaluate_challenge_answers_cases gen data0 w0)
        as [->|[(n & Hn' & Hfalse & _)|(? & ? & -> & _)]]; [done| |done].
      rewrite Hn0 in Hn'. injection Hn' as <-.
      by rewrite Hdoc0 in Hfalse; cbn in Hfalse; rewrite Htext in Hfalse.
Qed.

Lemma C6_not_found_witness :
  ask_question silent (asking "What is it about?" "missing.pdf") notes_world
  = (Error "Document content not found. Please upload the document again.",
     404, notes_world).
Proof.
  exact (proj1 (C6_not_found silent (asking "What is it about?" "missing.pdf")
                  "missing.pdf" notes_world eq_refl eq_refl eq_refl)
           "What is it about?" eq_refl eq_refl).
Defined.

(** ** Extraction failure *)

Lemma summary_response_not_extraction summary :
  summary_response summary ≠ extraction_failed.
Proof. by destruct summary as [[|c s]|]. Qed.

(** When the extractor chosen by an allowed file name gives no result. *)
Lemma extract_by_extension_None f :
  allowed_file (filename f) = true →
  extract_by_extension f = None
  ↔ (endswith (lower (filename f)) ".pdf" = true
     ∧ (as_pdf f = None ∨ ∃ pages, as_pdf f = Some pages ∧ PageError ∈ pages))
    ∨ (endswith (lower (filename f)) ".pdf" = false ∧ as_txt f = None).
Proof.
  intros Hallowed. unfold extract_by_extension.
  destruct (endswith (lower (filename f)) ".pdf") eqn:Hpdf.
  - destruct (as_pdf f) as [pages|] eqn:Hpages.
    + rewrite extract_text_from_pdf_None.
      split; [|by intros [[_ [?|(? & [= <-] & ?)]]|[? _]]].
      intros Herr. left. split; [done|]. right. by exists pages.
    + cbn. split; [|done]. intros _. left. by split; [|left].
  - destruct (allowed_file_kind _ Hallowed) as [Hp | ->]; [congruence|].
    destruct (as_txt f); cbn; split; try done.
    + by intros [[? _]|[_ ?]].
    + intros _. by right.
Qed.

(** C7. An Upload request is answered with the extraction-failure error
    exactly when it reaches the extraction step (a file with a non-empty,
    allowed name, that [file.save] has written) and the extractor chosen
    by the declared kind gives no result or the empty text; the extractor
    gives no result exactly when the bytes cannot be read as that kind
    (the reader, a page, or the decoding raises).  The failure ends the
    request: nothing is stored and no request goes to the remote service,
    so the world is unchanged.  When [file.save] raises, the request ends
    before the extraction, with the error page of the framework. *)
Theorem C7_extraction_failure gen file w :
  ((upload_document gen file w).1 = extraction_failed
   ↔ ∃ f, file = Some f ∧ truthy (filename f) = true
          ∧ allowed_file (filename f) = true
          ∧ saved f = true
          ∧ (extract_by_extension f = None ∨ extract_by_extension f = Some ""))
  ∧ ((upload_document gen file w).1 = extraction_failed →
     (upload_document gen file w).2 = w)
  ∧ (∀ f, allowed_file (filename f) = true →
       extract_by_extension f = None
       ↔ (endswith (lower (filename f)) ".pdf" = true
          ∧ (as_pdf f = None
             ∨ ∃ pages, as_pdf f = Some pages ∧ PageError ∈ pages))
         ∨ (endswith (lower (filename f)) ".pdf" = false ∧ as_txt f = None))
  ∧ (∀ f, file = Some f → truthy (filename f) = true →
       allowed_file (filename f) = true → saved f = false →
       upload_document gen file w = (InternalServerError, 500, w)).
Proof.
  split_and!; [| |apply extract_by_extension_None|].
  - destruct file as [f|]; [|by split; [|intros (? & ? & _)]].
    destruct (truthy (filename f)) eqn:Hname.
    2:{ unfold upload_document. rewrite Hname. cbn.
        split; [done|]. intros (? & [= <-] & ? & _). congruence. }
    destruct (allowed_file (filename f)) eqn:Hallowed.
    2:{ unfold upload_document. rewrite Hname, Hallowed. cbn.
        split; [done|]. intros (? & [= <-] & _ & ? & _). congruence. }
    destruct (saved f) eqn:Hsaved.
    2:{ rewrite (upload_document_unsaved gen f w) by done.
        split; [done|]. intros (? & [= <-] & _ & _ & ? & _). congruence. }
    destruct (extract_by_extension f) as [[|c text]|] eqn:Hext.
    + rewrite (upload_document_not_extracted gen f w) by auto.
      split; [|done]. intros _. exists f. rewrite Hext. split_and!; auto.
    + rewrite (upload_document_extracted gen f w (String c text)) by done.
      split; [by intros ?%summary_response_not_extraction|].
      intros (? & [= <-] & _ & _ & _ & [?|?]); congruence.
    + rewrite (upload_document_not_extracted gen f w) by auto.
      split; [|done]. intros _. exists f. rewrite Hext. split_and!; auto.
  - pose proof (upload_document_cases gen file w) as H.
    destruct file as [f|]; [|by rewrite H].
    destruct (stores f); [|by destruct H].
    destruct H as (text & _ & _ & ->).
    by intros ?%summary_response_not_extraction.
  - intros f -> Hname Hallowed Hsaved.
    by apply upload_document_unsaved.
Qed.

Lemma C7_extraction_failure_witness :
  upload_document silent (Some corrupt_pdf) notes_world
  = (extraction_failed, notes_world)
  ∧ extract_by_extension corrupt_pdf = None.
Proof.
  pose proof (C7_extraction_failure silent (Some corrupt_pdf) notes_world)
    as (Hiff & Hworld & Hkind & _).
  assert (Hnone : extract_by_extension corrupt_pdf = None).
  { apply (Hkind corrupt_pdf); [reflexivity|]. left. split; [reflexivity|].
    left. reflexivity. }
  assert (Hfail : (upload_document silent (Some corrupt_pdf) notes_world).1
                  = extraction_failed).
  { apply Hiff. exists corrupt_pdf.
    split; [reflexivity|]. split; [reflexivity|]. split; [reflexivity|].
    split; [reflexivity|]. left. exact Hnone. }
  split; [|exact Hnone].
  rewrite (surjective_pairing (upload_document _ _ _)).
  rewrite Hfail, (Hworld Hfail). reflexivity.
Defined.

(** ** Generation failure *)

(** C8. When the one remote call of a single-shot task errors or returns
    no usable content (no candidate, or no content part), the gateway
    returns [None] after that one request, without another attempt; the
    summary step of an Upload that has saved its file and extracted a text
    then answers [Failed to generate summary] and Ask answers
    [Failed to get an answer from the assistant], both with status 500,
    and exactly one request has gone to the remote service. *)
Theorem C8_generation_failure gen w :
  (∀ prompt config, no_usable_content (gen (length (sent w)) prompt config)) →
  (∀ prompt config,
      get_gemini_response gen prompt config w
      = (None, after_request prompt config w))
  ∧ (∀ file text,
        truthy (filename file) = true → allowed_file (filename file) = true →
        saved file = true →
        extract_by_extension file = Some text → truthy text = true →
        upload_document gen (Some file) w
        = (Error "Failed to generate summary", 500,
           after_request (summary_prompt text) None
             (after_store (filename file) text w)))
  ∧ (∀ data q name text,
        query data = Some q → documentName data = Some name →
        truthy q = true → truthy name = true →
        document_content w !! name = Some text → truthy text = true →
        ask_question gen data w
        = (Error "Failed to get an answer from the assistant", 500,
           after_request (ask_prompt q text) None w)).
Proof.
  intros Hfail.
  assert (Hnone : ∀ prompt config,
             response_text (gen (length (sent w)) prompt config) = None).
  { intros prompt config. by apply no_usable_content_text. }
  split_and!.
  - intros prompt config. by rewrite get_gemini_response_step, Hnone.
  - intros file text Hname Hallowed Hsaved Hext Htext.
    by rewrite (upload_document_extracted gen file w text), Hnone.
  - intros data q name text Hq Hn Htq Htn Hdoc Htext.
    by rewrite (ask_question_found gen data q name text w), Hnone.
Qed.

Lemma C8_generation_failure_witness :
  upload_document silent (Some notes) initial_world
  = (Error "Failed to generate summary", 500,
     after_request (summary_prompt notes_text) None
       (after_store "notes.txt" notes_text initial_world))
  ∧ ask_question silent (asking "What is it about?" "notes.txt") notes_world
    = (Error "Failed to get an answer from the assistant", 500,
       after_request (ask_prompt "What is it about?" notes_text) None
         notes_world).
Proof.
  split.
  - refine (proj1 (proj2 (C8_generation_failure silent initial_world _))
              notes notes_text eq_refl eq_refl eq_refl eq_refl eq_refl).
    intros prompt config. left. reflexivity.
  - refine (proj2 (proj2 (C8_generation_failure silent notes_world _))
              (asking "What is it about?" "notes.txt") "What is it about?"
              "notes.txt" notes_text eq_refl eq_refl eq_refl eq_refl eq_refl
              eq_refl).
    intros prompt config. left. reflexivity.
Defined.

(** ** Upload and the store *)

(** C9. An Upload that has saved its file, succeeds at extraction and
    fails at the summary step (the gateway returns no result, or an empty
    text) answers with the generation error and has stored the extracted
    text under the file name: the store is written before the summary
    call.  A later Ask or Challenge for that document name does not signal
    NotFound, and the request it sends is the source's prompt, written out
    here in full, ending in the newly stored text (with the JSON array
    configuration for Challenge). *)
Theorem C9_upload_stores_before_summary gen file text w :
  truthy (filename file) = true → allowed_file (filename file) = true →
  saved file = true →
  extract_by_extension file = Some text → truthy text = true →
  truthy_opt (response_text (gen (length (sent w)) (summary_prompt text) None))
  = false →
  let w' := (upload_document gen (Some file) w).2 in
  (upload_document gen (Some file) w).1
  = (Error "Failed to generate summary", 500)
  ∧ document_content w' !! filename file = Some text
  ∧ (∀ data, documentName data = Some (filename file) →
        (ask_question gen data w').1.2 ≠ 404
        ∧ (generate_challenge_questions gen data w').1.2 ≠ 404)
  ∧ (∀ data q, documentName data = Some (filename file) →
        query data = Some q → truthy q = true →
        sent (ask_question gen data w').2
        = ("Based on the following document, answer the question: '" +:+ q
           +:+ "'. Provide justification using [Page X, Line Y] or [Line Y] "
           +:+ "markers."
           +:+ String "010"%char
                 (String "010"%char ("Document content: " +:+ text)),
           None)
          :: sent w')
  ∧ (∀ data, documentName data = Some (filename file) →
        sent (generate_challenge_questions gen data w').2
        = ("Generate three distinct logic-based or comprehension-focused "
           +:+ "questions based on the following document. Provide them as "
           +:+ "a JSON array: ["
           +:+ String "034"%char ("Q1" +:+ String "034"%char (", "
           +:+ String "034"%char ("Q2" +:+ String "034"%char (", "
           +:+ String "034"%char ("Q3" +:+ String "034"%char ("]"
           +:+ String "010"%char
                 (String "010"%char ("Document content: " +:+ text)))))))),
           Some {| response_mime_type := "application/json";
                   schema := {| schema_type := "ARRAY";
                                schema_items_type := "STRING" |} |})
          :: sent w').
Proof.
  intros Hname Hallowed Hsaved Hext Htext Hfail w'. subst w'.
  rewrite (upload_document_extracted gen file w text) by done.
  cbn [fst snd].
  set (w' := after_request _ _ _).
  assert (Hdoc : document_content w' !! filename file = Some text).
  { subst w'. cbn. apply lookup_insert_eq. }
  split_and!.
  - by destruct (response_text _) as [[|c s]|].
  - done.
  - intros data Hn. split.
    + destruct (ask_question_cases gen data w')
        as [->|[(n & Hn' & Hfalse & _)|(? & ? & ? & _ & _ & _ & _ & ->)]];
        [done| |apply answer_response_status].
      rewrite Hn in Hn'. injection Hn' as <-.
      by rewrite Hdoc in Hfalse; cbn in Hfalse; rewrite Htext in Hfalse.
    + destruct (generate_challenge_questions_cases gen data w')
        as [->|[(n & Hn' & Hfalse & _)|(? & ? & _ & _ & _ & ->)]];
        [done| |apply questions_response_status].
      rewrite Hn in Hn'. injection Hn' as <-.
      by rewrite Hdoc in Hfalse; cbn in Hfalse; rewrite Htext in Hfalse.
  - intros data q Hn Hq Htq.
    by rewrite (ask_question_found gen data q (filename file) text w').
  - intros data Hn.
    by rewrite (generate_challenge_questions_found gen data (filename file)
                  text w').
Qed.

Lemma C9_upload_stores_before_summary_witness :
  (upload_document silent (Some notes) initial_world).1
  = (Error "Failed to generate summary", 500)
  ∧ document_content notes_world !! "notes.txt" = Some notes_text.
Proof.
  pose proof (C9_upload_stores_before_summary silent notes notes_text
                initial_world eq_refl eq_refl eq_refl eq_refl eq_refl eq_refl)
    as (Hresp & Hdoc & _).
  split; [exact Hresp|exact Hdoc].
Defined.

(** C5. An upload that has saved its file and stores under an identifier
    replaces whatever the store held for it; the entry stays the latest
    text through every later request that is not an upload under that
    identifier, and every Ask for the identifier then sends the source's
    prompt, written out here in full: the question, the citation
    instruction and the latest text, and nothing of an earlier text; it
    answers from the result of that prompt. *)
Theorem C5_last_write_wins gen file text w rs :
  truthy (filename file) = true → allowed_file (filename file) = true →
  saved file = true →
  extract_by_extension file = Some text → truthy text = true →
  Forall (λ r, ¬ uploads_as (filename file) r) rs →
  let w1 := (upload_document gen (Some file) w).2 in
  let w2 := run gen rs w1 in
  document_content w1 !! filename file = Some text
  ∧ document_content w2 !! filename file = Some text
  ∧ (∀ data q, documentName data = Some (filename file) →
        query data = Some q → truthy q = true →
        let prompt :=
          "Based on the following document, answer the question: '" +:+ q
          +:+ "'. Provide justification using [Page X, Line Y] or [Line Y] "
          +:+ "markers."
          +:+ String "010"%char
                (String "010"%char ("Document content: " +:+ text)) in
        sent (ask_question gen data w2).2 = (prompt, None) :: sent w2
        ∧ (ask_question gen data w2).1
          = answer_response
              (response_text (gen (length (sent w2)) prompt None))).
Proof.
  intros Hname Hallowed Hsaved Hext Htext Hrs w1 w2.
  assert (Hw1 : document_content w1 !! filename file = Some text).
  { subst w1. rewrite (upload_document_extracted gen file w text) by done.
    cbn. apply lookup_insert_eq. }
  assert (Hw2 : document_content w2 !! filename file = Some text).
  { subst w2. by rewrite run_lookup_other. }
  split_and!; [done..|].
  intros data q Hn Hq Htq.
  by rewrite (ask_question_found gen data q (filename file) text w2).
Qed.

Lemma C5_last_write_wins_witness :
  document_content notes_world !! "notes.txt" = Some notes_text
  ∧ document_content (upload_document silent (Some notes_v2) notes_world).2
      !! "notes.txt"
    = Some "[Line 1] Bye"
  ∧ sent (ask_question silent (asking "What is it about?" "notes.txt")
            (run silent [Challenge (about "notes.txt")]
               (upload_document silent (Some notes_v2) notes_world).2)).2
    = (ask_prompt "What is it about?" "[Line 1] Bye", None)
      :: sent (run silent [Challenge (about "notes.txt")]
                 (upload_document silent (Some notes_v2) notes_world).2).
Proof.
  assert (Hrs : Forall (λ r, ¬ uploads_as (filename notes_v2) r)
                  [Challenge (about "notes.txt")]).
  { apply Forall_cons. split; [|apply Forall_nil_2].
    intros (f & Hf & _). discriminate Hf. }
  pose proof (C5_last_write_wins silent notes_v2 "[Line 1] Bye" notes_world
                [Challenge (about "notes.txt")]
                eq_refl eq_refl eq_refl eq_refl eq_refl Hrs)
    as (Hw1 & _ & Hask).
  split; [reflexivity|]. split; [exact Hw1|].
  exact (proj1 (Hask (asking "What is it about?" "notes.txt")
                  "What is it about?" eq_refl eq_refl eq_refl)).
Defined.

(** ** The store invariant *)

(** C10. In every world the server reaches from its start, whatever the
    interpreter allows the decoder, every stored
    text is a non-empty string, so the lookup of the handlers, which takes
    a falsy stored value for an absent key, fails exactly for the
    identifiers without entry: a request that reaches the lookup is
    answered NotFound (status 404) exactly when the store has no entry for
    its document name. *)
Theorem C10_lookup_fails_only_when_absent gen rs limit :
  let w := run gen rs (start limit) in
  (∀ name text, document_content w !! name = Some text → text ≠ "")
  ∧ (∀ name, truthy_opt (document_content w !! name) = false
             ↔ document_content w !! name = None)
  ∧ (∀ data q name,
        query data = Some q → documentName data = Some name →
        truthy q = true → truthy name = true →
        (ask_question gen data w).1.2 = 404
        ↔ document_content w !! name = None)
  ∧ (∀ data name,
        documentName data = Some name → truthy name = true →
        (generate_challenge_questions gen data w).1.2 = 404
        ↔ document_content w !! name = None)
  ∧ (∀ data name qs ua,
        documentName data = Some name → questions data = Some qs →
        userAnswers data = Some ua →
        truthy name = true → qs ≠ [] → ua ≠ ∅ →
        (evaluate_challenge_answers gen data w).1.2 = 404
        ↔ document_content w !! name = None).
Proof.
  intros w.
  assert (Hinv : store_nonempty w).
  { subst w. apply run_store_nonempty. intros name text.
    unfold start. cbn [document_content]. by rewrite lookup_empty. }
  assert (Hfalsy : ∀ name, truthy_opt (document_content w !! name) = false
                           ↔ document_content w !! name = None).
  { intros name. destruct (document_content w !! name) as [text|] eqn:Hdoc;
      cbn; [|done].
    rewrite (Hinv name text Hdoc). by split. }
  split_and!.
  - intros name text Hdoc ->. by apply Hinv in Hdoc.
  - done.
  - intros data q name Hq Hn Htq Htn.
    destruct (document_content w !! name) as [text|] eqn:Hdoc.
    + rewrite (ask_question_found gen data q name text w) by eauto.
      split; [|done]. by intros ?%answer_response_status.
    + rewrite (ask_question_not_found gen data q name w);
        [done..|by rewrite Hdoc].
  - intros data name Hn Htn.
    destruct (document_content w !! name) as [text|] eqn:Hdoc.
    + rewrite (generate_challenge_questions_found gen data name text w)
        by eauto.
      split; [|done]. by intros ?%questions_response_status.
    + rewrite (generate_challenge_questions_not_found gen data name w);
        [done..|by rewrite Hdoc].
  - intros data name qs ua Hn Hqs Hua Htn Hne Hua'.
    destruct (document_content w !! name) as [text|] eqn:Hdoc.
    + destruct (evaluate_challenge_answers_found gen data name qs ua text w)
        as (fb & w' & -> & _); eauto.
      by split.
    + rewrite (evaluate_challenge_answers_not_found gen data name qs ua w);
        [done..|by rewrite Hdoc].
Qed.

Lemma C10_lookup_fails_only_when_absent_witness :
  (ask_question silent (asking "What is it about?" "missing.pdf")
     notes_world).1.2 = 404.
Proof.
  pose proof (C10_lookup_fails_only_when_absent silent [Upload (Some notes)]
                900)
    as (_ & _ & Hask & _).
  apply (Hask (asking "What is it about?" "missing.pdf") "What is it about?"
           "missing.pdf" eq_refl eq_refl eq_refl eq_refl).
  reflexivity.
Defined.

(** * Further properties of the code *)

(** ** Decimal numbers *)

Lemma every_app p (s1 s2 : string) :
  every p (s1 +:+ s2) = every p s1 && every p s2.
Proof.
  induction s1 as [|c s1 IH]; [done|].
  rewrite string_app_cons. cbn. rewrite IH. apply andb_assoc.
Qed.

Lemma contains_app c (s1 s2 : string) :
  contains c (s1 +:+ s2) = contains c s1 || contains c s2.
Proof.
  induction s1 as [|d s1 IH]; [done|].
  rewrite string_app_cons. cbn. rewrite IH. apply orb_assoc.
Qed.

Lemma pretty_N_char_digit x : isdigit (pretty_N_char x) = true.
Proof. unfold pretty_N_char. by repeat case_match. Qed.

Lemma pretty_N_go_digits x s :
  every isdigit s = true → every isdigit (pretty_N_go x s) = true.
Proof.
  revert s. induction (N.lt_wf_0 x) as [x _ IH]; intros s Hs.
  assert (x = 0 ∨ 0 < x)%N as [->|Hx] by lia.
  - by rewrite pretty_N_go_0.
  - rewrite pretty_N_go_step by done. apply IH; [by apply N.div_lt|].
    cbn. by rewrite pretty_N_char_digit.
Qed.

(** [str(n)] is a non-empty run of decimal digits. *)
Lemma str_digits (n : nat) : every isdigit (str n) = true.
Proof.
  unfold str, pretty, pretty_nat, pretty, pretty_N.
  case_decide; [done|]. by apply pretty_N_go_digits.
Qed.

Lemma every_not_contains p c (s : string) :
  every p s = true → p c = false → contains c s = false.
Proof.
  intros Hs Hc. induction s as [|d s IH]; [done|].
  cbn in *. apply andb_true_iff in Hs as [Hd Hs].
  rewrite IH by done. destruct (Ascii.eqb_spec d c) as [->|]; [congruence|done].
Qed.

(** Two digit runs followed by characters that are no digits: the runs
    and what follows them are the same. *)
Lemma digits_run_inj (a b : string) (c d : ascii) (r r' : string) :
  every isdigit a = true → every isdigit b = true →
  isdigit c = false → isdigit d = false →
  a +:+ String c r = b +:+ String d r' →
  a = b ∧ String c r = String d r'.
Proof.
  revert b. induction a as [|x a IH]; intros [|y b] Ha Hb Hc Hd Heq.
  - done.
  - rewrite string_app_cons in Heq. injection Heq as -> _.
    cbn in Hb. by rewrite Hc in Hb.
  - rewrite string_app_cons in Heq. injection Heq as -> _.
    cbn in Ha. by rewrite Hd in Ha.
  - rewrite !string_app_cons in Heq. injection Heq as -> Heq.
    cbn in Ha, Hb. apply andb_true_iff in Ha as [_ Ha], Hb as [_ Hb].
    destruct (IH b Ha Hb Hc Hd Heq) as [-> ?]. done.
Qed.

Lemma string_app_inv_r (s1 s2 t : string) : s1 +:+ t = s2 +:+ t → s1 = s2.
Proof.
  intros Heq.
  assert (Hlen : ∀ a b : string,
             String.length (a +:+ b) = String.length a + String.length b).
  { intros a b. induction a as [|c a IH]; [done|].
    rewrite string_app_cons. cbn. by rewrite IH. }
  assert (String.length s1 = String.length s2) as Hl.
  { apply (f_equal String.length) in Heq. rewrite !Hlen in Heq. lia. }
  revert s2 Heq Hl. induction s1 as [|c s1 IH]; intros [|d s2] Heq Hl;
    try done.
  rewrite !string_app_cons in Heq. injection Heq as -> Heq.
  f_equal. apply IH; [done|]. cbn in Hl. lia.
Qed.

(** ** Markers identify their line *)

(** X6. The tagged form of a non-blank line of a flat source determines
    its line number and its content: two tagged lines are equal only for
    the same number and the same line. *)
Theorem X6_txt_marker_identifies_line (i j : nat) (line line' : string) :
  truthy (strip line) = true → truthy (strip line') = true →
  txt_line i line = txt_line j line' → i = j ∧ line = line'.
Proof.
  unfold txt_line. intros -> ->. intros Heq.
  apply (inj (String.app "[Line ")) in Heq.
  change ("] " +:+ line) with (String "]" (" " +:+ line)) in Heq.
  change ("] " +:+ line') with (String "]" (" " +:+ line')) in Heq.
  apply digits_run_inj in Heq as [Hstr Hrest];
    [|apply str_digits|apply str_digits|done|done].
  apply (inj pretty) in Hstr.
  injection Hrest as Hrest. change (line = line') in Hrest.
  split; [lia|done].
Qed.

(** X7. The tagged form of a non-blank line of a paginated source
    determines its page number, its line number and its content. *)
Theorem X7_pdf_marker_identifies_line (p p' i i' : nat) (line line' : string) :
  truthy (strip line) = true → truthy (strip line') = true →
  pdf_line p i line = pdf_line p' i' line' →
  p = p' ∧ i = i' ∧ line = line'.
Proof.
  unfold pdf_line. intros -> ->. intros Heq.
  apply (inj (String.app "[Page ")) in Heq.
  change (", Line " +:+ ?x) with (String "," (" Line " +:+ x)) in Heq.
  apply digits_run_inj in Heq as [Hp Hrest];
    [|apply str_digits|apply str_digits|done|done].
  apply (inj pretty) in Hp.
  injection Hrest as Hrest.
  change (str (i + 1) +:+ String "]" (" " +:+ line +:+ nl)
          = str (i' + 1) +:+ String "]" (" " +:+ line' +:+ nl)) in Hrest.
  apply digits_run_inj in Hrest as [Hi Hrest];
    [|apply str_digits|apply str_digits|done|done].
  apply (inj pretty) in Hi.
  injection Hrest as Hrest. change (line +:+ nl = line' +:+ nl) in Hrest.
  apply string_app_inv_r in Hrest.
  split_and!; [lia|lia|done].
Qed.

(** ** Empty extraction results *)

Lemma truthy_app (s1 s2 : string) :
  truthy (s1 +:+ s2) = truthy s1 || truthy s2.
Proof. by destruct s1. Qed.

Lemma txt_line_truthy i line : truthy (txt_line i line) = true.
Proof. unfold txt_line. by destruct (truthy (strip line)). Qed.

Lemma pdf_line_truthy p i line : truthy (pdf_line p i line) = true.
Proof. unfold pdf_line. by destruct (truthy (strip line)). Qed.

Lemma keepends_nil (s : string) : keepends s = [] ↔ s = "".
Proof.
  destruct s as [|c s]; [done|]. cbn.
  destruct (Ascii.eqb c LF); [done|]. by destruct (keepends s).
Qed.

Lemma translate_newlines_empty (s : string) :
  translate_newlines s = "" ↔ s = "".
Proof.
  destruct s as [|c s]; [done|]. cbn.
  destruct (Ascii.eqb c CR); [|done].
  destruct s as [|d s]; [done|]. by destruct (Ascii.eqb d LF).
Qed.

Lemma split_cons (c : ascii) (s : string) : ∃ h t, split c s = h :: t.
Proof.
  destruct s as [|d s]; cbn; [by eauto|].
  destruct (Ascii.eqb d c); [by eauto|]. destruct (split c s); eauto.
Qed.

Lemma page_output_truthy p t : truthy (page_output p t) = true.
Proof.
  unfold page_output. destruct (split_cons LF t) as (h & tl & ->).
  cbn. by rewrite truthy_app, pdf_line_truthy.
Qed.

(** X2. The text extracted from a TXT file is empty exactly when the file
    is empty: a file of blank lines only extracts to newlines, and is not
    an extraction failure. *)
Theorem X2_txt_empty_iff (content : string) :
  extract_text_from_txt (Some content) = Some "" ↔ content = "".
Proof.
  split; [|by intros ->].
  unfold extract_text_from_txt. rewrite txt_lines_loop_join.
  intros [= Hjoin]. unfold readlines in Hjoin.
  destruct (keepends (translate_newlines content)) as [|l ls] eqn:Hk.
  - apply (proj1 (keepends_nil _)) in Hk.
    by apply (proj1 (translate_newlines_empty _)) in Hk.
  - cbn in Hjoin. apply (f_equal truthy) in Hjoin.
    by rewrite truthy_app, txt_line_truthy in Hjoin.
Qed.

(** X3. The text extracted from a PDF whose pages are all read is empty
    exactly when the document has no page: every page, with text or
    without, adds at least a newline. *)
Theorem X3_pdf_empty_iff (pages : list page_result) :
  extract_text_from_pdf (Some pages) = Some "" ↔ pages = [].
Proof.
  split; [|by intros ->].
  unfold extract_text_from_pdf, enumerate. rewrite pdf_pages_loop_join.
  destruct pages as [|page pages]; [done|]. cbn [mapM].
  destruct (page_text_or_empty page) as [t|]; [|done]. cbn.
  destruct (mapM page_text_or_empty pages) as [ts|]; [|done]. cbn.
  intros [= Hjoin]. apply (f_equal truthy) in Hjoin.
  by rewrite !truthy_app, page_output_truthy in Hjoin.
Qed.

(** ** The extracted text keeps the lines of the source *)

Lemma terminated_cons (c : ascii) (s : string) :
  c ≠ LF → terminated s → terminated (String c s).
Proof.
  intros Hc (body & -> & Hbody). exists (String c body). split; [done|].
  cbn. rewrite Hbody. by destruct (Ascii.eqb_spec c LF).
Qed.

Lemma unterminated_cons (c : ascii) (s : string) :
  c ≠ LF → contains LF s = false → unterminated (String c s).
Proof.
  intros Hc Hs. split; [done|]. cbn. rewrite Hs.
  by destruct (Ascii.eqb_spec c LF).
Qed.

Lemma keepends_well_lined (s : string) : well_lined (keepends s).
Proof.
  induction s as [|c s IH]; [done|]. cbn [keepends].
  destruct (Ascii.eqb_spec c LF) as [->|Hc].
  - assert (terminated nl) by (by exists "").
    destruct (keepends s); cbn; auto.
  - destruct (keepends s) as [|h [|h' t]]; cbn in *.
    + right. by apply unterminated_cons.
    + destruct IH as [?|[_ ?]].
      * left. by apply terminated_cons.
      * right. by apply unterminated_cons.
    + destruct IH as [? ?]. split; [by apply terminated_cons|done].
Qed.

Lemma keepends_terminated (body rest : string) :
  contains LF body = false →
  keepends ((body +:+ nl) +:+ rest) = (body +:+ nl) :: keepends rest.
Proof.
  induction body as [|d body IH]; intros Hbody; [done|].
  cbn in Hbody. apply orb_false_iff in Hbody as [Hd Hbody].
  rewrite !string_app_cons. cbn [keepends]. rewrite Hd, IH by done. done.
Qed.

Lemma keepends_unterminated (s : string) :
  unterminated s → keepends s = [s].
Proof.
  intros [Hne Hs]. induction s as [|c s IH]; [done|].
  cbn in Hs. apply orb_false_iff in Hs as [Hc Hs].
  cbn [keepends]. rewrite Hc. destruct s as [|d s]; [done|].
  by rewrite IH.
Qed.

Lemma keepends_join (l : list string) : well_lined l → keepends (join l) = l.
Proof.
  induction l as [|x [|y l] IH]; [done| |].
  - intros [(body & -> & Hbody)|Hx]; cbn [join foldr].
    + by rewrite keepends_terminated.
    + rewrite string_app_nil_r. by apply keepends_unterminated.
  - intros [(body & -> & Hbody) Hl]. cbn [join foldr].
    rewrite keepends_terminated by done. f_equal. by apply IH.
Qed.

Lemma well_lined_imap (f : nat → string → string) (l : list string) :
  (∀ i x, terminated x → terminated (f i x)) →
  (∀ i x, unterminated x → terminated (f i x) ∨ unterminated (f i x)) →
  well_lined l → well_lined (imap f l).
Proof.
  revert f. induction l as [|x [|y l] IH]; intros f Ht Hu; [done| |].
  - intros [?|?]; cbn; [left; by apply Ht|by apply Hu].
  - intros [Hx Hl]. split; [by apply Ht|].
    apply (IH (f ∘ S)); [intros i; apply Ht|intros i; apply Hu|done].
Qed.

(** The marker of a flat source has no newline and no carriage return. *)
Lemma txt_marker_clean (c : ascii) (i : nat) :
  isdigit c = false → contains c "[Line " = false → contains c "] " = false →
  contains c ("[Line " +:+ str (i + 1) +:+ "] ") = false.
Proof.
  intros Hd H1 H2. rewrite !contains_app, H1, H2.
  by rewrite (every_not_contains isdigit c _ (str_digits _) Hd).
Qed.

Lemma txt_line_terminated i x : terminated x → terminated (txt_line i x).
Proof.
  intros (body & -> & Hbody). unfold txt_line.
  destruct (truthy _); [|by exists ""].
  exists ("[Line " +:+ str (i + 1) +:+ "] " +:+ body).
  split; [by rewrite !string_app_assoc|].
  rewrite <- !string_app_assoc, contains_app, Hbody, string_app_assoc.
  by rewrite txt_marker_clean.
Qed.

Lemma txt_line_unterminated i x :
  unterminated x → terminated (txt_line i x) ∨ unterminated (txt_line i x).
Proof.
  intros [Hne Hx]. unfold txt_line.
  destruct (truthy _); [|left; by exists ""].
  right. split; [done|].
  rewrite <- !string_app_assoc, contains_app, Hx, string_app_assoc.
  by rewrite txt_marker_clean.
Qed.

Lemma contains_join (c : ascii) (l : list string) :
  contains c (join l) = false ↔ ∀ x, x ∈ l → contains c x = false.
Proof.
  induction l as [|y l IH]; cbn [join foldr].
  - split; [|done]. by intros _ x ?%elem_of_nil.
  - rewrite contains_app, orb_false_iff. fold (join l). rewrite IH.
    split.
    + intros [Hy Hl] x [->|?]%elem_of_cons; auto.
    + intros H. split; [apply H; left|intros x ?; apply H; by right].
Qed.

Lemma translate_newlines_clean (s : string) :
  contains CR (translate_newlines s) = false.
Proof.
  assert (∀ n s, String.length s ≤ n →
                 contains CR (translate_newlines s) = false) as H.
  { clear s. induction n as [|n IH]; intros [|c s] Hn; try done.
    { cbn in Hn. lia. }
    cbn in Hn. cbn [translate_newlines].
    destruct (Ascii.eqb_spec c CR) as [->|Hc].
    - destruct s as [|d s]; [done|]. cbn in Hn.
      destruct (Ascii.eqb d LF); cbn [contains];
        change (Ascii.eqb LF CR) with false; cbn [orb];
        apply IH; cbn [String.length]; lia.
    - cbn [contains]. rewrite IH by lia. by destruct (Ascii.eqb_spec c CR). }
  by apply (H (String.length s)).
Qed.

Lemma translate_newlines_id (s : string) :
  contains CR s = false → translate_newlines s = s.
Proof.
  induction s as [|c s IH]; [done|]. cbn.
  intros [Hc Hs]%orb_false_iff. by rewrite Hc, IH.
Qed.

(** X4. Reading the text extracted from a TXT file line by line gives back
    the lines of the file, in order and as many, each one tagged with its
    number or, when blank, as a bare newline: line [i] of the extracted
    text is the tagged line [i] of the file. *)
Theorem X4_txt_lines_preserved (content : string) :
  readlines <$> extract_text_from_txt (Some content)
  = Some (imap (λ i line,
            if truthy (strip line)
            then "[Line " +:+ str (i + 1) +:+ "] " +:+ line
            else nl)
          (readlines content)).
Proof.
  unfold extract_text_from_txt. cbn [fmap option_fmap option_map].
  rewrite txt_lines_loop_join. f_equal.
  change (readlines (join (imap txt_line (readlines content)))
          = imap txt_line (readlines content)).
  unfold readlines at 1. rewrite translate_newlines_id.
  - apply keepends_join, well_lined_imap;
      [apply txt_line_terminated|apply txt_line_unterminated|].
    apply keepends_well_lined.
  - apply contains_join. intros x (i & y & -> & Hy)%elem_of_lookup_imap_1.
    assert (contains CR y = false) as Hclean.
    { pose proof (translate_newlines_clean content) as Hc.
      rewrite <- (join_keepends (translate_newlines content)) in Hc.
      apply (proj1 (contains_join _ _) Hc), list_elem_of_lookup. eauto. }
    unfold txt_line. destruct (truthy _); [|done].
    rewrite <- !string_app_assoc, contains_app, Hclean, string_app_assoc.
    by rewrite txt_marker_clean.
Qed.

Lemma split_terminated (body rest : string) :
  contains LF body = false →
  split LF ((body +:+ nl) +:+ rest) = body :: split LF rest.
Proof.
  induction body as [|d body IH]; intros Hbody; [done|].
  cbn in Hbody. apply orb_false_iff in Hbody as [Hd Hbody].
  rewrite !string_app_cons. cbn [split]. rewrite Hd, IH by done. done.
Qed.

(** No piece of [s.split(c)] has a [c]. *)
Lemma split_clean (c : ascii) (s x : string) :
  x ∈ split c s → contains c x = false.
Proof.
  revert x. induction s as [|d s IH]; intros x; cbn [split].
  - by intros ->%list_elem_of_singleton.
  - destruct (Ascii.eqb d c) eqn:Hd.
    + intros [->|?]%elem_of_cons; [done|by apply IH].
    + destruct (split c s) as [|h t]; [by intros ->%list_elem_of_singleton; cbn; rewrite Hd|].
      intros [->|?]%elem_of_cons.
      * cbn. rewrite Hd. apply IH. by left.
      * apply IH. by right.
Qed.

Lemma split_join_terminated (bodies : list string) (rest : string) :
  (∀ b, b ∈ bodies → contains LF b = false) →
  split LF (join ((λ b, b +:+ nl) <$> bodies) +:+ rest)
  = bodies ++ split LF rest.
Proof.
  induction bodies as [|b bodies IH]; intros Hb; [done|].
  cbn [fmap list_fmap join foldr app].
  rewrite string_app_assoc, split_terminated by (apply Hb; by left).
  f_equal. apply IH. intros x ?. apply Hb. by right.
Qed.


Lemma pdf_line_tagged p i line : pdf_line p i line = pdf_tagged p i line +:+ nl.
Proof.
  unfold pdf_line, pdf_tagged. destruct (truthy _); [|done].
  by rewrite !string_app_assoc.
Qed.

Lemma pdf_tagged_clean p i line :
  contains LF line = false → contains LF (pdf_tagged p i line) = false.
Proof.
  intros Hline. unfold pdf_tagged. destruct (truthy _); [|done].
  rewrite !contains_app, Hline.
  by rewrite !(every_not_contains isdigit LF _ (str_digits _)).
Qed.

Lemma split_page_output p t rest :
  split LF (page_output p t +:+ rest)
  = imap (pdf_tagged p) (split LF t) ++ split LF rest.
Proof.
  unfold page_output.
  rewrite (imap_ext (pdf_line p) (λ i, (λ b, b +:+ nl) ∘ pdf_tagged p i))
    by (intros; apply pdf_line_tagged).
  rewrite <- fmap_imap. apply split_join_terminated.
  intros b (i & y & -> & Hy)%elem_of_lookup_imap_1.
  apply pdf_tagged_clean, (split_clean LF t), list_elem_of_lookup. eauto.
Qed.

Lemma split_pages_output (texts : list string) (n : nat) :
  split LF (join (imap (λ p, page_output (n + p)) texts))
  = concat (imap (λ p t, imap (pdf_tagged (n + p)) (split LF t)) texts)
    ++ [""].
Proof.
  revert n. induction texts as [|t texts IH]; intros n; [done|].
  cbn [imap join foldr concat]. rewrite split_page_output, <- app_assoc.
  f_equal.
  fold (join (imap ((λ p, page_output (n + p)) ∘ S) texts)).
  rewrite (imap_ext _ (λ p, page_output (S n + p)))
    by (intros i x _; unfold compose; f_equal; lia).
  rewrite IH. do 2 f_equal. apply imap_ext. intros i x _.
  apply imap_ext. intros j y _. f_equal. lia.
Qed.

(** X5. Splitting the text extracted from a PDF at its newlines gives, page
    after page, the lines of the page texts in order, each one tagged
    with its page and line number or, when blank, empty, and a last empty
    piece: every source line has its own line in the extracted text. *)
Theorem X5_pdf_lines_preserved (pages : list page_result) :
  split LF <$> extract_text_from_pdf (Some pages)
  = (λ texts : list string,
       concat (imap (λ p page_text,
                 imap (λ i line,
                    if truthy (strip line)
                    then "[Page " +:+ str (p + 1) +:+ ", Line "
                         +:+ str (i + 1) +:+ "] " +:+ line
                    else "")
                  (split LF page_text))
               texts)
       ++ [""])
    <$> mapM page_text_or_empty pages.
Proof.
  unfold extract_text_from_pdf, enumerate. rewrite pdf_pages_loop_join.
  destruct (mapM page_text_or_empty pages) as [texts|]; [|done].
  cbn [fmap option_fmap option_map]. f_equal.
  change ("" +:+ ?x) with x. apply (split_pages_output texts 0).
Qed.

(** ** Allowed file names *)

Lemma endswith_inv (s suffix : string) :
  endswith s suffix = true → ∃ pre, s = pre +:+ suffix.
Proof.
  induction s as [|c s IH]; cbn [endswith].
  - rewrite orb_false_r. intros ->%String.eqb_eq. by exists "".
  - intros [->%String.eqb_eq|[pre ->]%IH]%orb_true_iff.
    + by exists "".
    + by exists (String c pre).
Qed.

Lemma lower_app_inv (s a b : string) :
  lower s = a +:+ b → ∃ s1 s2, s = s1 +:+ s2 ∧ lower s1 = a ∧ lower s2 = b.
Proof.
  revert s. induction a as [|x a IH]; intros s Hs.
  - by exists "", s.
  - destruct s as [|c s]; [done|]. rewrite string_app_cons in Hs.
    cbn in Hs. injection Hs as Hc Hs.
    destruct (IH s Hs) as (s1 & s2 & -> & <- & <-).
    exists (String c s1), s2. cbn. by rewrite Hc.
Qed.

Lemma lower_char_dot (c : ascii) : lower_char c = "."%char → c = "."%char.
Proof. by destruct c as [[] [] [] [] [] [] [] []]; vm_compute. Qed.

Lemma lower_no_dot (ext : string) :
  contains "." (lower ext) = false → contains "." ext = false.
Proof.
  induction ext as [|c ext IH]; [done|]. cbn.
  intros [Hc Hext]%orb_false_iff. rewrite IH by done.
  destruct (Ascii.eqb_spec c ".") as [->|]; [done|done].
Qed.

Lemma after_last_app (c : ascii) (pre ext : string) :
  contains c ext = false → after_last c (pre +:+ String c ext) = ext.
Proof.
  intros Hext. unfold after_last. induction pre as [|d pre IH].
  - change ("" +:+ String c ext) with (String c ext). cbn [split].
    rewrite Ascii.eqb_refl, (split_without c ext Hext). done.
  - rewrite string_app_cons. cbn [split].
    destruct (split_two c (pre +:+ String c ext)) as (h & x & t & Hs).
    { rewrite contains_app. cbn. by rewrite Ascii.eqb_refl, orb_true_r. }
    rewrite Hs in *. by destruct (Ascii.eqb d c).
Qed.

Lemma allowed_file_suffix (pre ext : string) :
  lower ext = "pdf" ∨ lower ext = "txt" →
  allowed_file (pre +:+ String "." ext) = true.
Proof.
  intros Hext. unfold allowed_file.
  assert (contains "." ext = false) as Hdot.
  { apply lower_no_dot. by destruct Hext as [-> | ->]. }
  rewrite contains_app, after_last_app by done. cbn [contains].
  rewrite Ascii.eqb_refl, orb_true_r. cbn [orb andb].
  apply bool_decide_eq_true. unfold ALLOWED_EXTENSIONS.
  destruct Hext as [-> | ->]; set_solver.
Qed.

(** X1. A file name is allowed exactly when, in lower case, it ends with
    [.pdf] or [.txt]: the check of [allowed_file] and the choice of the
    extractor in [upload_document] agree, so an allowed name always has an
    extractor and only the last extension counts. *)
Theorem X1_allowed_file_iff (name : string) :
  allowed_file name = true
  ↔ endswith (lower name) ".pdf" = true ∨ endswith (lower name) ".txt" = true.
Proof.
  split; [apply allowed_file_kind|].
  intros [[pre H]%endswith_inv|[pre H]%endswith_inv];
    apply lower_app_inv in H as (s1 & s2 & -> & _ & H);
    (destruct s2 as [|c ext]; [done|]);
    cbn in H; injection H as Hc%lower_char_dot Hext; subst c;
    apply allowed_file_suffix; auto.
Qed.

(** ** Requests to the remote service *)

Section Requests.

Variable gen : nat → string → option generation_config → remote_result.

Lemma evaluate_loop_sent doc_text user_answers qs :
  ∀ n (fb : gmap nat string) w,
    sent (evaluate_loop gen doc_text user_answers (enumerate_from n qs) fb w).2
    = reverse (imap (λ j question,
                   (evaluate_prompt (default "" (user_answers !! str (n + j)))
                      question doc_text, None)) qs)
      ++ sent w.
Proof.
  induction qs as [|question qs IH]; intros n fb w; [done|].
  cbn [enumerate_from evaluate_loop]. unfold bind at 1.
  rewrite get_gemini_response_step, IH. cbn [imap after_request sent].
  rewrite reverse_cons, <- app_assoc, Nat.add_0_r. cbn [app]. do 2 f_equal.
  apply imap_ext. intros j q _. unfold compose.
  by replace (S n + j) with (n + S j) by lia.
Qed.

Lemma upload_document_rejected f w :
  stores f = false →
  ∃ response, upload_document gen (Some f) w = (response, w)
    ∧ (response = (Error "No selected file", 400)
       ∨ response = (Error "File type not allowed", 400)
       ∨ response = unhandled
       ∨ response = extraction_failed).
Proof.
  unfold stores. intros Hf.
  destruct (truthy (filename f)) eqn:Hname.
  2:{ eexists. split; [|left; done].
      unfold upload_document. by rewrite Hname. }
  destruct (allowed_file (filename f)) eqn:Hallowed.
  2:{ eexists. split; [|right; left; done].
      unfold upload_document. by rewrite Hname, Hallowed. }
  destruct (saved f) eqn:Hsaved.
  2:{ exists unhandled. split; [|by right; right; left].
      by apply upload_document_unsaved. }
  exists extraction_failed. split; [|by right; right; right].
  apply upload_document_not_extracted; [done..|].
  cbn in Hf. destruct (extract_by_extension f) as [[|c s]|]; auto. done.
Qed.

Lemma endswith_refl (s : string) : endswith s s = true.
Proof. apply (endswith_app "" s). Qed.

Lemma endswith_app_r (a s suffix : string) :
  endswith s suffix = true → endswith (a +:+ s) suffix = true.
Proof.
  intros Hs. induction a as [|c a IH]; [done|].
  rewrite string_app_cons. cbn [endswith]. rewrite IH. apply orb_true_r.
Qed.

Ltac ends_with_document :=
  repeat first [apply endswith_refl | apply endswith_app_r].

Lemma summary_prompt_grounded text :
  endswith (summary_prompt text) ("Document content: " +:+ text) = true.
Proof.
  apply (endswith_app
           ("Summarize the following document in no more than 150 words. "
            +:+ "Focus on the main points. ")
           ("Document content: " +:+ text)).
Qed.

Lemma ask_prompt_grounded q text :
  endswith (ask_prompt q text) ("Document content: " +:+ text) = true.
Proof. unfold ask_prompt. ends_with_document. Qed.

Lemma challenge_prompt_grounded text :
  endswith (challenge_prompt text) ("Document content: " +:+ text) = true.
Proof. unfold challenge_prompt. ends_with_document. Qed.

Lemma evaluate_prompt_grounded a q text :
  endswith (evaluate_prompt a q text) ("Document content: " +:+ text) = true.
Proof. unfold evaluate_prompt. ends_with_document. Qed.

(** The three ways [evaluate_challenge_answers] ends, with the loop it
    runs. *)
Lemma evaluate_challenge_answers_trace data w :
  (evaluate_challenge_answers gen data w = (Error "Missing data", 400, w))
  ∨ (evaluate_challenge_answers gen data w
     = (not_found "Document content not found.", w))
  ∨ (∃ name qs ua text fb w',
        documentName data = Some name ∧ questions data = Some qs
        ∧ userAnswers data = Some ua ∧ qs ≠ [] ∧ ua ≠ ∅
        ∧ document_content w !! name = Some text ∧ truthy text = true
        ∧ evaluate_challenge_answers gen data w = (Feedback fb, 200, w')
        ∧ evaluate_loop gen text ua (enumerate qs) ∅ w = (fb, w')).
Proof.
  destruct (documentName data) as [name|] eqn:Hn;
    [|left; unfold evaluate_challenge_answers; by rewrite Hn].
  destruct (questions data) as [qs|] eqn:Hqs;
    [|left; unfold evaluate_challenge_answers; by rewrite Hn, Hqs].
  destruct (userAnswers data) as [ua|] eqn:Hua;
    [|left; unfold evaluate_challenge_answers; by rewrite Hn, Hqs, Hua].
  destruct (truthy name) eqn:Htn;
    [|left; unfold evaluate_challenge_answers; by rewrite Hn, Hqs, Hua, Htn].
  destruct qs as [|q0 qs];
    [left; unfold evaluate_challenge_answers; by rewrite Hn, Hqs, Hua, Htn|].
  destruct (decide (ua = ∅)) as [->|Hne].
  { left. unfold evaluate_challenge_answers. by rewrite Hn, Hqs, Hua, Htn. }
  destruct (truthy_opt (document_content w !! name)) eqn:Hdoc.
  - right; right. destruct (document_content w !! name) as [text|] eqn:Hlook;
      [|done].
    destruct (evaluate_challenge_answers_found gen data name (q0 :: qs) ua
                text w) as (fb & w' & Hresp & Hloop); [done..|].
    exists name, (q0 :: qs), ua, text, fb, w'. by split_and!.
  - right; left.
    by apply (evaluate_challenge_answers_not_found gen data name (q0 :: qs) ua).
Qed.

Lemma after_request_grounded prompt config w p :
  grounded w p → grounded (after_request prompt config w) p.
Proof. done. Qed.

(** What a request adds to the log of the remote service. *)
Lemma handle_trace r w :
  ∃ new,
    sent (handle gen r w).2 = new ++ sent w
    ∧ length new ≤ calls_allowed r
    ∧ ∀ p c, (p, c) ∈ new →
        grounded (handle gen r w).2 p ∧ c = config_of r.
Proof.
  destruct r as [file|data|data|data]; cbn [handle].
  - pose proof (upload_document_cases gen file w) as H.
    destruct file as [f|];
      [|rewrite H; exists []; split_and!; [done|cbn; lia|by intros ?? ?%elem_of_nil]].
    destruct (stores f).
    + destruct H as (text & Hext & Htext & ->).
      exists [(summary_prompt text, None)]. split_and!; [done|done|].
      intros p c [= -> ->]%list_elem_of_singleton. split; [|done].
      exists (filename f), text. split_and!; [|done|apply summary_prompt_grounded].
      cbn. apply lookup_insert_eq.
    + destruct H as [-> _]. exists []. split_and!; [done|cbn; lia|].
      by intros ?? ?%elem_of_nil.
  - destruct (ask_question_cases gen data w)
      as [->|[(n & _ & _ & ->)|(q & n & text & _ & _ & Hdoc & Htext & ->)]].
    + exists []. split_and!; [done|cbn; lia|by intros ?? ?%elem_of_nil].
    + exists []. split_and!; [done|cbn; lia|by intros ?? ?%elem_of_nil].
    + exists [(ask_prompt q text, None)]. split_and!; [done|done|].
      intros p c [= -> ->]%list_elem_of_singleton. split; [|done].
      exists n, text. split_and!; [done|done|apply ask_prompt_grounded].
  - destruct (generate_challenge_questions_cases gen data w)
      as [->|[(n & _ & _ & ->)|(n & text & _ & Hdoc & Htext & ->)]].
    + exists []. split_and!; [done|cbn; lia|by intros ?? ?%elem_of_nil].
    + exists []. split_and!; [done|cbn; lia|by intros ?? ?%elem_of_nil].
    + exists [(challenge_prompt text, Some challenge_config)].
      split_and!; [done|done|].
      intros p c [= -> ->]%list_elem_of_singleton. split; [|done].
      exists n, text. split_and!; [done|done|apply challenge_prompt_grounded].
  - destruct (evaluate_challenge_answers_trace data w)
      as [->|[->|(n & qs & ua & text & fb & w' & _ & Hqs & _ & _ & _ & Hdoc
                  & Htext & -> & Hloop)]].
    + exists []. split_and!; [done|cbn; lia|by intros ?? ?%elem_of_nil].
    + exists []. split_and!; [done|cbn; lia|by intros ?? ?%elem_of_nil].
    + pose proof (evaluate_loop_sent text ua qs 0 ∅ w) as Hsent.
      destruct (evaluate_loop_spec gen text ua qs 0 ∅ w)
        as (fb2 & w2 & Hloop2 & Hstore & _).
      unfold enumerate in Hloop. rewrite Hloop in Hsent, Hloop2.
      injection Hloop2 as <- <-. cbn [snd] in Hsent |- *.
      eexists. split; [exact Hsent|]. split.
      * rewrite length_reverse, length_imap. cbn. by rewrite Hqs.
      * intros p c (i & q & [= -> ->] & _)%elem_of_reverse%elem_of_lookup_imap_1.
        split; [|done]. exists n, text. rewrite Hstore.
        split_and!; [done|done|apply evaluate_prompt_grounded].
Qed.

End Requests.

(** X8. A request only adds to the log of the remote service, in front of
    what was there: at most one call for Upload, Ask and Challenge, at
    most one per question for EvaluateChallenge; only the call of
    Challenge carries the JSON output constraint. *)
Theorem X8_bounded_calls gen r w :
  ∃ new,
    sent (handle gen r w).2 = new ++ sent w
    ∧ length new ≤ calls_allowed r
    ∧ ∀ p c, (p, c) ∈ new → c = config_of r.
Proof.
  destruct (handle_trace gen r w) as (new & Hsent & Hlen & Hnew).
  exists new. split_and!; [done..|]. intros p c Hp.
  by destruct (Hnew p c Hp).
Qed.

(** X9. Every prompt a request sends to the remote service ends with
    [Document content: ] and the whole, non-empty text of a document that
    is in the store once the request is handled. *)
Theorem X9_prompts_grounded gen r w :
  ∃ new,
    sent (handle gen r w).2 = new ++ sent w
    ∧ ∀ p c, (p, c) ∈ new →
        ∃ name text,
          document_content (handle gen r w).2 !! name = Some text
          ∧ text ≠ ""
          ∧ endswith p ("Document content: " +:+ text) = true.
Proof.
  destruct (handle_trace gen r w) as (new & Hsent & _ & Hnew).
  exists new. split; [done|]. intros p c Hp.
  destruct (Hnew p c Hp) as [(name & text & Hdoc & Htext & Hend) _].
  exists name, text. split_and!; [done| |done]. by intros ->.
Qed.

Lemma summary_response_codes o :
  (summary_response o).2 = 200 ∨ (summary_response o).2 = 500.
Proof. destruct o as [[|c s]|]; cbn; auto. Qed.

Lemma answer_response_codes o :
  (answer_response o).2 = 200 ∨ (answer_response o).2 = 500.
Proof. destruct o as [[|c s]|]; cbn; auto. Qed.

Lemma questions_response_codes depth o :
  (questions_response depth o).2 = 200 ∨ (questions_response depth o).2 = 500.
Proof.
  destruct o as [[|c s]|]; cbn; auto.
  destruct (Json.loads _ _) as [v|[]]; cbn; auto.
Qed.

(** X10. A request answered with status 400 or 404 changes nothing: the
    store is as before and no call has gone to the remote service. *)
Theorem X10_rejected_requests_change_nothing gen r w :
  (handle gen r w).1.2 = 400 ∨ (handle gen r w).1.2 = 404 →
  (handle gen r w).2 = w.
Proof.
  destruct r as [file|data|data|data]; cbn [handle].
  - pose proof (upload_document_cases gen file w) as H.
    destruct file as [f|]; [|by rewrite H].
    destruct (stores f); [|by destruct H].
    destruct H as (text & _ & _ & ->). cbn [fst snd].
    destruct (summary_response_codes
                (response_text (gen (length (sent w)) (summary_prompt text) None)))
      as [-> | ->]; by intros [?|?].
  - destruct (ask_question_cases gen data w)
      as [->|[(n & _ & _ & ->)|(q & n & text & _ & _ & _ & _ & ->)]];
      [done..|].
    cbn [fst snd].
    destruct (answer_response_codes
                (response_text (gen (length (sent w)) (ask_prompt q text) None)))
      as [-> | ->]; by intros [?|?].
  - destruct (generate_challenge_questions_cases gen data w)
      as [->|[(n & _ & _ & ->)|(n & text & _ & _ & _ & ->)]]; [done..|].
    cbn [fst snd].
    destruct (questions_response_codes (recursion_limit w)
                (response_text (gen (length (sent w)) (challenge_prompt text)
                                  (Some challenge_config))))
      as [-> | ->]; by intros [?|?].
  - destruct (evaluate_challenge_answers_cases gen data w)
      as [->|[(n & _ & _ & ->)|(fb & w' & -> & _)]]; [done..|].
    by intros [?|?].
Qed.

(** X11. The status of a response follows its body: an error body comes
    with status 400, 404 or 500, the error page for an exception no handler
    catches with status 500, and every other body (summary, answer,
    questions, feedback) with status 200. *)
Theorem X11_status_matches_body gen r w :
  match (handle gen r w).1 with
  | (Error _, status) => status = 400 ∨ status = 404 ∨ status = 500
  | (InternalServerError, status) => status = 500
  | (_, status) => status = 200
  end.
Proof.
  destruct r as [file|data|data|data]; cbn [handle].
  - pose proof (upload_document_cases gen file w) as H.
    destruct file as [f|]; [|rewrite H; cbn; auto].
    destruct (stores f) eqn:Hf.
    + destruct H as (text & _ & _ & ->). cbn [fst].
      destruct (response_text _) as [[|c s]|]; cbn; auto.
    + destruct (upload_document_rejected gen f w Hf)
        as (resp & -> & [->|[->|[->| ->]]]); cbn; auto.
  - destruct (ask_question_cases gen data w)
      as [->|[(n & _ & _ & ->)|(q & n & text & _ & _ & _ & _ & ->)]];
      cbn [fst]; [cbn; auto..|].
    destruct (response_text _) as [[|c s]|]; cbn; auto.
  - destruct (generate_challenge_questions_cases gen data w)
      as [->|[(n & _ & _ & ->)|(n & text & _ & _ & _ & ->)]];
      cbn [fst]; [cbn; auto..|].
    destruct (response_text _) as [[|c s]|]; cbn; auto.
    destruct (Json.loads _ _) as [v|[]]; cbn; auto.
  - destruct (evaluate_challenge_answers_cases gen data w)
      as [->|[(n & _ & _ & ->)|(fb & w' & -> & _)]]; cbn; auto.
Qed.

(** X12. Ask, Challenge and EvaluateChallenge never change the store,
    whatever the request holds and whatever the remote service does. *)
Theorem X12_queries_leave_store gen data w :
  document_content (ask_question gen data w).2 = document_content w
  ∧ document_content (generate_challenge_questions gen data w).2
    = document_content w
  ∧ document_content (evaluate_challenge_answers gen data w).2
    = document_content w.
Proof.
  split_and!.
  - apply (handle_document_content gen (Ask data) w).
  - apply (handle_document_content gen (Challenge data) w).
  - apply (handle_document_content gen (EvaluateChallenge data) w).
Qed.

(** X13. No sequence of requests removes an identifier from the store, and
    a request changes at most the entry of the file name it uploads. *)
Theorem X13_store_only_grows gen :
  (∀ rs w, dom (document_content w) ⊆ dom (document_content (run gen rs w)))
  ∧ (∀ r w name, ¬ uploads_as name r →
       document_content (handle gen r w).2 !! name
       = document_content w !! name).
Proof.
  split.
  - intros rs. induction rs as [|r rs IH]; intros w; [done|].
    rewrite run_cons. etrans; [|apply IH].
    rewrite handle_document_content.
    destruct r as [[f|]|data|data|data]; try done.
    destruct (stores f); [|done]. rewrite dom_insert. set_solver.
  - intros r w name Hr. rewrite handle_document_content.
    destruct r as [[f|]|data|data|data]; try done.
    destruct (stores f); [|done].
    apply lookup_insert_ne. intros Hname. apply Hr. by exists f.
Qed.

Lemma X13_store_only_grows_witness :
  document_content (handle silent (Upload (Some corrupt_pdf)) notes_world).2
    !! "notes.txt"
  = document_content notes_world !! "notes.txt".
Proof.
  apply (proj2 (X13_store_only_grows silent)).
  intros (f & Hf & Hname). injection Hf as <-. discriminate Hname.
Defined.



(** ** Answers and their questions *)




Lemma evaluate_loop_answers_ext gen doc_text ua1 ua2 items :
  (∀ i q, (i, q) ∈ items → ua1 !! str i = ua2 !! str i) →
  ∀ fb w,
    evaluate_loop gen doc_text ua1 items fb w
    = evaluate_loop gen doc_text ua2 items fb w.
Proof.
  induction items as [|[i q] items IH]; intros Hagree fb w; [done|].
  cbn [evaluate_loop]. unfold bind.
  rewrite (Hagree i q) by (by left).
  destruct (get_gemini_response _ _ _ _) as [evaluation w1].
  apply IH. intros j q' ?. apply (Hagree j q'). by right.
Qed.

(** X16. Two EvaluateChallenge requests that differ only in [userAnswers]
    are handled alike when both mappings are non-empty and agree on the
    keys [str(i)] for the positions of the questions: other keys are
    never read. *)
Theorem X16_only_indexed_answers_count gen data1 data2 name qs ua1 ua2 w :
  documentName data1 = Some name → documentName data2 = Some name →
  questions data1 = Some qs → questions data2 = Some qs →
  userAnswers data1 = Some ua1 → userAnswers data2 = Some ua2 →
  ua1 ≠ ∅ → ua2 ≠ ∅ →
  (∀ i, i < length qs → ua1 !! str i = ua2 !! str i) →
  evaluate_challenge_answers gen data1 w
  = evaluate_challenge_answers gen data2 w.
Proof.
  intros Hn1 Hn2 Hq1 Hq2 Hu1 Hu2 Hne1 Hne2 Hagree.
  unfold evaluate_challenge_answers.
  rewrite Hn1, Hn2, Hq1, Hq2, Hu1, Hu2. unfold truthy_dict.
  rewrite !bool_decide_eq_false_2 by done.
  destruct (negb (truthy name) || negb (truthy_list qs) || negb (negb false));
    [done|].
  unfold bind, get_document.
  destruct (negb (truthy_opt (document_content w !! name))); [done|].
  rewrite (evaluate_loop_answers_ext gen _ ua1 ua2); [done|].
  intros i q Hi. apply Hagree.
  apply list_elem_of_lookup in Hi as [j Hj].
  rewrite enumerate_lookup in Hj.
  destruct (qs !! j) eqn:Hqj; [|done]. injection Hj as <- <-.
  by apply lookup_lt_Some in Hqj.
Qed.

(** ** What the handlers use of a remote result *)

Section Usable.

Variables gen1 gen2 : nat → string → option generation_config → remote_result.

Hypothesis Husable : ∀ n p c, usable (gen1 n p c) = usable (gen2 n p c).

Lemma usable_truthy n p c :
  truthy_opt (response_text (gen1 n p c))
  = truthy_opt (response_text (gen2 n p c)).
Proof.
  pose proof (Husable n p c) as H. unfold usable in H.
  by destruct (response_text (gen1 n p c)) as [[|??]|],
       (response_text (gen2 n p c)) as [[|??]|].
Qed.

Lemma usable_text n p c :
  truthy_opt (response_text (gen1 n p c)) = true →
  response_text (gen1 n p c) = response_text (gen2 n p c).
Proof.
  pose proof (Husable n p c) as H. unfold usable in H.
  by destruct (response_text (gen1 n p c)) as [[|??]|],
       (response_text (gen2 n p c)) as [[|??]|].
Qed.

Lemma usable_summary n p c :
  summary_response (response_text (gen1 n p c))
  = summary_response (response_text (gen2 n p c)).
Proof.
  pose proof (Husable n p c) as H. unfold usable in H.
  destruct (response_text (gen1 n p c)) as [[|??]|],
    (response_text (gen2 n p c)) as [[|??]|]; simplify_eq; done.
Qed.

Lemma usable_answer n p c :
  answer_response (response_text (gen1 n p c))
  = answer_response (response_text (gen2 n p c)).
Proof.
  pose proof (Husable n p c) as H. unfold usable in H.
  destruct (response_text (gen1 n p c)) as [[|??]|],
    (response_text (gen2 n p c)) as [[|??]|]; simplify_eq; done.
Qed.

Lemma usable_questions depth n p c :
  questions_response depth (response_text (gen1 n p c))
  = questions_response depth (response_text (gen2 n p c)).
Proof.
  pose proof (Husable n p c) as H. unfold usable in H.
  destruct (response_text (gen1 n p c)) as [[|??]|],
    (response_text (gen2 n p c)) as [[|??]|]; simplify_eq; done.
Qed.

Lemma usable_evaluation n p c :
  evaluation_or_default (response_text (gen1 n p c))
  = evaluation_or_default (response_text (gen2 n p c)).
Proof.
  pose proof (Husable n p c) as H. unfold usable in H.
  destruct (response_text (gen1 n p c)) as [[|??]|],
    (response_text (gen2 n p c)) as [[|??]|]; simplify_eq; done.
Qed.

Lemma usable_evaluate_loop doc_text ua items :
  ∀ fb w,
    evaluate_loop gen1 doc_text ua items fb w
    = evaluate_loop gen2 doc_text ua items fb w.
Proof.
  induction items as [|[i q] items IH]; intros fb w; [done|].
  cbn [evaluate_loop]. unfold bind.
  rewrite !get_gemini_response_step, usable_evaluation. apply IH.
Qed.

Lemma usable_handle r w : handle gen1 r w = handle gen2 r w.
Proof.
  destruct r as [[f|]|data|data|data]; cbn [handle].
  - destruct (truthy (filename f)) eqn:Hname;
      [|by unfold upload_document; rewrite Hname].
    destruct (allowed_file (filename f)) eqn:Hallowed;
      [|by unfold upload_document; rewrite Hname, Hallowed].
    destruct (saved f) eqn:Hsaved;
      [|by rewrite !upload_document_unsaved].
    destruct (extract_by_extension f) as [[|c text]|] eqn:Hext.
    + by rewrite !upload_document_not_extracted by auto.
    + rewrite !(upload_document_extracted _ f w (String c text)) by done.
      by rewrite usable_summary.
    + by rewrite !upload_document_not_extracted by auto.
  - done.
  - destruct (query data) as [q|] eqn:Hq;
      [|by unfold ask_question; rewrite Hq].
    destruct (documentName data) as [name|] eqn:Hn;
      [|by unfold ask_question; rewrite Hq, Hn].
    destruct (truthy q) eqn:Htq;
      [|by unfold ask_question; rewrite Hq, Hn, Htq].
    destruct (truthy name) eqn:Htn;
      [|by unfold ask_question; rewrite Hq, Hn, Htq, Htn].
    destruct (document_content w !! name) as [[|c text]|] eqn:Hdoc.
    + by rewrite !(ask_question_not_found _ data q name w)
        by (done || by rewrite Hdoc).
    + rewrite !(ask_question_found _ data q name (String c text) w) by done.
      by rewrite usable_answer.
    + by rewrite !(ask_question_not_found _ data q name w)
        by (done || by rewrite Hdoc).
  - destruct (documentName data) as [name|] eqn:Hn;
      [|by unfold generate_challenge_questions; rewrite Hn].
    destruct (truthy name) eqn:Htn;
      [|by unfold generate_challenge_questions; rewrite Hn, Htn].
    destruct (document_content w !! name) as [[|c text]|] eqn:Hdoc.
    + by rewrite !(generate_challenge_questions_not_found _ data name w)
        by (done || by rewrite Hdoc).
    + rewrite !(generate_challenge_questions_found _ data name
                  (String c text) w) by done.
      by rewrite usable_questions.
    + by rewrite !(generate_challenge_questions_not_found _ data name w)
        by (done || by rewrite Hdoc).
  - unfold evaluate_challenge_answers.
    destruct (documentName data) as [name|]; [|done].
    destruct (questions data) as [qs|]; [|done].
    destruct (userAnswers data) as [ua|]; [|done].
    destruct (negb (truthy name) || negb (truthy_list qs)
              || negb (truthy_dict ua)); [done|].
    unfold bind, get_document.
    destruct (negb (truthy_opt (document_content w !! name))); [done|].
    by rewrite usable_evaluate_loop.
Qed.

End Usable.

(** X17. The handlers use the result of a remote call only through the
    text of the first part of its first candidate, and take an empty text
    like no result: two services whose results agree in that respect are
    handled alike, response and world. *)
Theorem X17_remote_used_through_text gen1 gen2 :
  (∀ n p c, usable (gen1 n p c) = usable (gen2 n p c)) →
  ∀ r w, handle gen1 r w = handle gen2 r w.
Proof. intros Husable r w. by apply usable_handle. Qed.

Lemma X17_remote_used_through_text_witness :
  handle partless (Ask (asking "What is it about?" "notes.txt")) notes_world
  = handle silent (Ask (asking "What is it about?" "notes.txt")) notes_world.
Proof.
  apply (X17_remote_used_through_text partless silent). intros n p c. reflexivity.
Defined.

(** ** When the single-shot tasks succeed *)

Lemma summary_response_success r s :
  summary_response (response_text r)
  = (Summary "File uploaded and summarized successfully" s, 200)
  ↔ usable r = Some s.
Proof.
  unfold usable. destruct (response_text r) as [[|c t]|]; cbn; [done| |done].
  split; intros [= <-]; done.
Qed.

Lemma answer_response_success r a :
  answer_response (response_text r) = (Answer a, 200) ↔ usable r = Some a.
Proof.
  unfold usable. destruct (response_text r) as [[|c t]|]; cbn; [done| |done].
  split; intros [= <-]; done.
Qed.

(** X18. Upload answers with the success message and a summary exactly when
    the file has a non-empty, allowed name, saving it under the upload
    folder raises nothing, the extractor of its kind gives a non-empty
    text, and the one remote call on the summary prompt of that text
    returns a non-empty text, which is the summary. *)
Theorem X18_upload_succeeds_iff gen file w summary :
  (upload_document gen file w).1
  = (Summary "File uploaded and summarized successfully" summary, 200)
  ↔ ∃ f text,
      file = Some f ∧ truthy (filename f) = true
      ∧ allowed_file (filename f) = true
      ∧ saved f = true
      ∧ extract_by_extension f = Some text ∧ truthy text = true
      ∧ usable (gen (length (sent w)) (summary_prompt text) None)
        = Some summary.
Proof.
  destruct file as [f|]; [|by split; [|intros (? & ? & ? & _)]].
  destruct (truthy (filename f)) eqn:Hname.
  2:{ unfold upload_document. rewrite Hname. cbn.
      split; [done|]. intros (? & ? & [= <-] & ? & _). congruence. }
  destruct (allowed_file (filename f)) eqn:Hallowed.
  2:{ unfold upload_document. rewrite Hname, Hallowed. cbn.
      split; [done|]. intros (? & ? & [= <-] & _ & ? & _). congruence. }
  destruct (saved f) eqn:Hsaved.
  2:{ rewrite (upload_document_unsaved gen f w) by done.
      split; [done|]. intros (? & ? & [= <-] & _ & _ & ? & _). congruence. }
  destruct (extract_by_extension f) as [[|c text]|] eqn:Hext.
  - rewrite (upload_document_not_extracted gen f w) by auto.
    split; [done|]. intros (? & ? & [= <-] & _ & _ & _ & ? & ? & _).
    by simplify_eq.
  - rewrite (upload_document_extracted gen f w (String c text)) by done.
    cbn [fst]. rewrite summary_response_success. split.
    + intros Hs. exists f, (String c text). by split_and!.
    + intros (? & ? & [= <-] & _ & _ & _ & ? & _ & ?). by simplify_eq.
  - rewrite (upload_document_not_extracted gen f w) by auto.
    split; [done|]. intros (? & ? & [= <-] & _ & _ & _ & ? & _). congruence.
Qed.

(** X19. Ask answers with an answer exactly when the query and the
    document name are non-empty, the store has a non-empty text under the
    name, and the one remote call on the prompt of query and text returns
    a non-empty text, which is the answer. *)
Theorem X19_ask_answers_iff gen data w answer :
  (ask_question gen data w).1 = (Answer answer, 200)
  ↔ ∃ q name text,
      query data = Some q ∧ truthy q = true
      ∧ documentName data = Some name ∧ truthy name = true
      ∧ document_content w !! name = Some text ∧ truthy text = true
      ∧ usable (gen (length (sent w)) (ask_prompt q text) None) = Some answer.
Proof.
  destruct (query data) as [q|] eqn:Hq.
  2:{ unfold ask_question. rewrite Hq. cbn. split; [done|].
      by intros (? & ? & ? & ? & _). }
  destruct (documentName data) as [name|] eqn:Hn.
  2:{ unfold ask_question. rewrite Hq, Hn. cbn. split; [done|].
      by intros (? & ? & ? & _ & _ & ? & _). }
  destruct (truthy q) eqn:Htq.
  2:{ unfold ask_question. rewrite Hq, Hn, Htq. cbn. split; [done|].
      intros (? & ? & ? & [= <-] & ? & _). congruence. }
  destruct (truthy name) eqn:Htn.
  2:{ unfold ask_question. rewrite Hq, Hn, Htq, Htn. cbn. split; [done|].
      intros (? & ? & ? & _ & _ & [= <-] & ? & _). congruence. }
  destruct (document_content w !! name) as [[|c text]|] eqn:Hdoc.
  - rewrite (ask_question_not_found gen data q name w)
      by (done || by rewrite Hdoc).
    split; [done|].
    intros (? & ? & ? & _ & _ & [= <-] & _ & ? & ? & _). by simplify_eq.
  - rewrite (ask_question_found gen data q name (String c text) w) by done.
    cbn [fst]. rewrite answer_response_success. split.
    + intros Ha. exists q, name, (String c text). by split_and!.
    + intros (? & ? & ? & [= <-] & _ & [= <-] & _ & ? & _ & ?).
      by simplify_eq.
  - rewrite (ask_question_not_found gen data q name w)
      by (done || by rewrite Hdoc).
    split; [done|].
    intros (? & ? & ? & _ & _ & [= <-] & _ & ? & _). congruence.
Qed.

(** ** Witnesses *)

Lemma X6_txt_marker_identifies_line_witness :
  2 = 2 ∧ "World" +:+ nl = "World" +:+ nl.
Proof.
  apply (X6_txt_marker_identifies_line 2 2 ("World" +:+ nl) ("World" +:+ nl));
    reflexivity.
Defined.

Lemma X7_pdf_marker_identifies_line_witness :
  0 = 0 ∧ 4 = 4 ∧ "Hello" = "Hello".
Proof.
  apply (X7_pdf_marker_identifies_line 0 0 4 4 "Hello" "Hello"); reflexivity.
Defined.

Lemma X10_rejected_requests_change_nothing_witness :
  (handle silent (Ask (about "notes.txt")) notes_world).2 = notes_world.
Proof.
  apply (X10_rejected_requests_change_nothing silent (Ask (about "notes.txt"))
           notes_world).
  left. reflexivity.
Defined.


Lemma X16_only_indexed_answers_count_witness :
  evaluate_challenge_answers silent (quiz {[ "0" := "yes" ]}) notes_world
  = evaluate_challenge_answers silent
      (quiz {[ "0" := "yes"; "note" := "ignored" ]}) notes_world.
Proof.
  apply (X16_only_indexed_answers_count silent _ _ "notes.txt"
           ["Q1"; "Q2"; "Q3"] {[ "0" := "yes" ]}
           {[ "0" := "yes"; "note" := "ignored" ]} notes_world);
    try reflexivity; try apply insert_non_empty.
  intros [|[|[|i]]] Hi; try reflexivity. cbn in Hi. lia.
Defined.
